(** * inFakt MCP server: validation, unit conversion and error translation

    A shallow embedding of the TypeScript sources ([config.ts], [currency.ts],
    [validation.ts], [api-client.ts], the handler modules and [index.ts]) and
    the properties of the specification settled against it.

    JavaScript numbers are IEEE-754 binary64 values, embedded as Rocq's
    primitive [float]; strings are [string]s read as sequences of code units
    below U+0100; objects are association lists in [Object.entries] order
    (own enumerable string-keyed properties). *)

From Stdlib Require Import ZArith List String Ascii Bool Lia DecimalString.
From Stdlib Require Import Floats.
From Stdlib Require DecimalN.
Import ListNotations.

#[local] Set Warnings "-register-all".

Local Open Scope string_scope.
Local Open Scope list_scope.
Local Open Scope Z_scope.

(* ===================================================================== *)
(** * The JavaScript value model *)
(* ===================================================================== *)

Module JS.

(** A decoded JSON document, a tool argument bag, or any other plain value. *)
Inductive value : Type :=
| VUndefined
| VNull
| VBool (b : bool)
| VNum (x : float)
| VStr (s : string)
| VArr (items : list value)
| VObj (fields : list (string * value)).

(** The result of [typeof]; arrays and [null] are both ["object"]. *)
Inductive jstype := TUndefined | TObject | TBoolean | TNumber | TString.

Definition typeof (v : value) : jstype :=
  match v with
  | VUndefined => TUndefined
  | VNull => TObject
  | VBool _ => TBoolean
  | VNum _ => TNumber
  | VStr _ => TString
  | VArr _ => TObject
  | VObj _ => TObject
  end.

Definition is_number (v : value) : bool :=
  match v with VNum _ => true | _ => false end.

Definition is_string (v : value) : bool :=
  match v with VStr _ => true | _ => false end.

Definition is_undefined (v : value) : bool :=
  match v with VUndefined => true | _ => false end.

Definition isArray (v : value) : bool :=
  match v with VArr _ => true | _ => false end.

(** [ToBoolean]: the falsy values are [undefined], [null], [false], [NaN],
    both zeros and the empty string. *)
Definition truthy (v : value) : bool :=
  match v with
  | VUndefined | VNull => false
  | VBool b => b
  | VNum x => negb (PrimFloat.is_nan x || PrimFloat.is_zero x)
  | VStr s => negb (String.eqb s "")
  | VArr _ | VObj _ => true
  end.

(** Property read [o.k] / [o[k]]: the first binding of the key, [undefined]
    when there is none or when the receiver is not an object. *)
Fixpoint lookup (k : string) (fields : list (string * value)) : option value :=
  match fields with
  | [] => None
  | (k', v) :: rest => if String.eqb k k' then Some v else lookup k rest
  end.

Definition get (o : value) (k : string) : value :=
  match o with
  | VObj fields => match lookup k fields with Some v => v | None => VUndefined end
  | _ => VUndefined
  end.

(** Property write [o[k] = v] on an object under construction: an existing
    key keeps its position, a new key is appended. *)
Fixpoint obj_set {A : Type} (fields : list (string * A)) (k : string) (v : A)
  : list (string * A) :=
  match fields with
  | [] => [(k, v)]
  | (k', v') :: rest =>
      if String.eqb k k' then (k, v) :: rest else (k', v') :: obj_set rest k v
  end.

Definition keys {A : Type} (fields : list (string * A)) : list string :=
  map fst fields.

(** [Array.prototype.includes] on an array of strings. *)
Definition includes (l : list string) (s : string) : bool :=
  existsb (String.eqb s) l.

(** ** Numbers *)

(** The Number value of a mathematical integer (correctly rounded; exact
    below 2^53). *)
Definition of_int (n : Z) : float :=
  SF2Prim (binary_normalize prec emax n 0 false).

(** [Math.round]: the integral Number closest to [x], ties towards
    positive infinity; integral values, infinities and NaN are returned
    unchanged, and a result of zero keeps the sign of [x]. *)
Definition Math_round (x : float) : float :=
  match Prim2SF x with
  | S754_finite s m e =>
      if 0 <=? e then x
      else
        let k := 2 ^ (- e) in
        let sm := if s then Z.neg m else Z.pos m in
        let n := (2 * sm + k) / (2 * k) in
        if n =? 0 then (if s then neg_zero else zero) else of_int n
  | _ => x
  end.

Definition isFinite (x : float) : bool :=
  negb (PrimFloat.is_nan x || PrimFloat.is_infinity x).

(** ** Strings *)

Definition chars (s : string) : list ascii := list_ascii_of_string s.

Definition code (c : ascii) : N := N_of_ascii c.

Definition is_digit (c : ascii) : bool :=
  (48 <=? code c)%N && (code c <=? 57)%N.

Definition digit_val (c : ascii) : Z := Z.of_N (code c) - 48.

(** White space and line terminators among the code units below U+0100:
    TAB, LF, VT, FF, CR, SP and NBSP. *)
Definition is_space (c : ascii) : bool :=
  let n := code c in
  ((9 <=? n)%N && (n <=? 13)%N) || (n =? 32)%N || (n =? 160)%N.

Fixpoint drop_spaces (l : list ascii) : list ascii :=
  match l with
  | c :: rest => if is_space c then drop_spaces rest else l
  | [] => []
  end.

(** [String.prototype.trim]. *)
Definition trim (s : string) : string :=
  string_of_list_ascii (rev (drop_spaces (rev (drop_spaces (chars s))))).

Fixpoint span_digits (l : list ascii) : list ascii * list ascii :=
  match l with
  | c :: rest =>
      if is_digit c then let (ds, tl) := span_digits rest in (c :: ds, tl)
      else ([], l)
  | [] => ([], [])
  end.

Definition digits_val (ds : list ascii) : Z :=
  fold_left (fun acc c => 10 * acc + digit_val c) ds 0.

Fixpoint starts_with (p l : list ascii) : bool :=
  match p, l with
  | [], _ => true
  | a :: p', b :: l' => Ascii.eqb a b && starts_with p' l'
  | _ :: _, [] => false
  end.

(** The optional [ExponentPart] of a decimal literal: taken only when at
    least one digit follows the indicator and its optional sign. *)
Definition exponent_part (l : list ascii) : Z :=
  match l with
  | c :: rest =>
      if Ascii.eqb c "e" || Ascii.eqb c "E" then
        let '(neg, rest') :=
          match rest with
          | s :: r => if Ascii.eqb s "-" then (true, r)
                      else if Ascii.eqb s "+" then (false, r) else (false, rest)
          | [] => (false, rest)
          end in
        let (ds, _) := span_digits rest' in
        match ds with
        | [] => 0
        | _ => if neg then - digits_val ds else digits_val ds
        end
      else 0
  | [] => 0
  end.

(** The Number value of [m * 10^e] for a positive [m], rounded to nearest,
    ties to even. *)
Definition decimal_to_float (neg : bool) (m : positive) (e : Z) : float :=
  if 0 <=? e
  then SF2Prim (binary_normalize prec emax
                  ((if neg then Z.neg m else Z.pos m) * 10 ^ e) 0 false)
  else SF2Prim (SFdiv prec emax (S754_finite neg m 0)
                  (S754_finite false (Z.to_pos (10 ^ (- e))) 0)).

(** [parseFloat]: skip leading white space, read the longest prefix that is
    a [StrDecimalLiteral], [NaN] when there is none. *)
Definition parseFloat (s : string) : float :=
  let l := drop_spaces (chars s) in
  let '(neg, l1) :=
    match l with
    | c :: r => if Ascii.eqb c "-" then (true, r)
                else if Ascii.eqb c "+" then (false, r) else (false, l)
    | [] => (false, l)
    end in
  if starts_with (chars "Infinity") l1
  then (if neg then neg_infinity else infinity)
  else
    let (ip, l2) := span_digits l1 in
    let '(fp, l3) :=
      match l2 with
      | c :: r => if Ascii.eqb c "." then span_digits r else ([], l2)
      | [] => ([], l2)
      end in
    match ip ++ fp with
    | [] => nan
    | ds =>
        match digits_val ds with
        | Z.pos m =>
            decimal_to_float neg m (exponent_part l3 - Z.of_nat (List.length fp))
        | _ => if neg then neg_zero else zero
        end
    end.

End JS.

Import JS.

(* ===================================================================== *)
(** * currency.ts *)
(* ===================================================================== *)

Module Currency.

(** [groszeToPLN] is typed [number | string]; the two arms of its
    [typeof grosze === 'string'] test. *)
Inductive amount :=
| ANum (x : float)
| AStr (s : string).

Definition groszeToPLN (grosze : amount) : float :=
  let value := match grosze with AStr s => parseFloat s | ANum x => x end in
  (Math_round value / 100)%float.


Definition MONETARY_FIELDS : list string :=
  [ "net_price"; "gross_price"; "tax_price"; "unit_net_price";
    "unit_gross_price"; "price"; "amount"; "total"; "value" ].

(** The value stored under a recognised key: numbers and strings go through
    [groszeToPLN], anything else is stored as it is (and not traversed). *)
Definition convert_monetary (value : JS.value) : JS.value :=
  match value with
  | VNum x => VNum (groszeToPLN (ANum x))
  | VStr s => VNum (groszeToPLN (AStr s))
  | _ => value
  end.

(** [convertAllMonetaryFields] on a document read as a tree. The object arm
    is the source's loop over [Object.entries(obj)], writing each key of a
    fresh [converted] object. *)
Fixpoint convertAllMonetaryFields (data : value) : value :=
  match data with
  | VNull | VUndefined => data
  | VArr items => VArr (map convertAllMonetaryFields items)
  | VObj obj =>
      VObj (fold_left
              (fun converted (entry : string * value) =>
                 let (key, value) := entry in
                 if includes MONETARY_FIELDS key
                 then obj_set converted key (convert_monetary value)
                 else obj_set converted key (convertAllMonetaryFields value))
              obj [])
  | _ => data
  end.

End Currency.

Import Currency.

(* ===================================================================== *)
(** * The runtime and the errors that travel through the server *)
(* ===================================================================== *)

(** The outward error categories of the protocol SDK that the code uses. *)
Inductive ErrorCode := InvalidParams | InvalidRequest | InternalError | MethodNotFound.

(** Built-ins of the JavaScript runtime and of the protocol SDK whose
    output the code only passes along. *)
Record runtime := {
  (** [Number::toString], as in a template literal or [String(x)] *)
  number_to_string : float -> string;
  (** [JSON.stringify(v, null, 2)]; [None] is [undefined] *)
  JSON_stringify : value -> option string;
  (** the [message] property of an [McpError] built from a code and a
      message *)
  McpError_message : ErrorCode -> string -> string;
  (** whether [new URL(s)] returns rather than throws *)
  URL_parses : string -> bool;
  (** whether the date parser lets a day up to 31 roll over into the next
      month (as V8 does) instead of answering an invalid date *)
  Date_rolls_over : bool
}.

(** Decimal digits of a non-negative integer: what a template literal
    prints for a loop index, a length or an HTTP status. *)
Definition decimal (n : N) : string := NilZero.string_of_uint (N.to_uint n).

(** A failed HTTP exchange as the HTTP client reports it: the response
    status and decoded body when there was a response, and a message. *)
Record AxiosError := {
  response : option (N * value);
  axios_message : string
}.

(** What can be thrown. A [ValidationError] is an [McpError] of code
    [InvalidParams] that also carries the offending field. *)
Inductive exn :=
| ValidationError (field message : string)
| McpError (code : ErrorCode) (message : string)
| Error (message : string)
| ConfigurationError (message : string)
| InfaktApiError (statusCode : float) (message : string)
| Axios (e : AxiosError)
| Thrown (v : value).

Inductive result (A : Type) :=
| Ok (a : A)
| Throw (e : exn).

Arguments Ok {A} a.
Arguments Throw {A} e.

Definition bind {A B : Type} (r : result A) (k : A -> result B) : result B :=
  match r with
  | Ok a => k a
  | Throw e => Throw e
  end.

Notation "r ;; k" := (bind r (fun _ => k))
  (at level 61, right associativity).

Definition when (b : bool) (r : result unit) : result unit :=
  if b then r else Ok tt.

Definition is_ok {A : Type} (r : result A) : bool :=
  match r with Ok _ => true | Throw _ => false end.

(** The text that the [ValidationError] constructor hands to [McpError]. *)
Definition validation_text (field message : string) : string :=
  "Validation error for '" ++ field ++ "': " ++ message.

(** The [message] property of a thrown error object. *)
Definition exn_message (rt : runtime) (e : exn) : string :=
  match e with
  | ValidationError field message =>
      McpError_message rt InvalidParams (validation_text field message)
  | McpError code message => McpError_message rt code message
  | Error message => message
  | ConfigurationError message => message
  | InfaktApiError _ message => message
  | Axios e => axios_message e
  | Thrown _ => ""
  end.

(** The error category of a thrown [McpError] (a [ValidationError] is
    one); [None] for anything else. *)
Definition exn_code (e : exn) : option ErrorCode :=
  match e with
  | ValidationError _ _ => Some InvalidParams
  | McpError code _ => Some code
  | _ => None
  end.

(** [String.prototype.replace] with a string pattern and the empty
    replacement: the first occurrence is removed. *)
Fixpoint remove_first (pat s : string) : string :=
  if String.prefix pat s
  then String.substring (String.length pat) (String.length s - String.length pat) s
  else match s with
       | EmptyString => EmptyString
       | String c rest => String c (remove_first pat rest)
       end.

(** [Array.prototype.join]. *)
Fixpoint join (sep : string) (l : list string) : string :=
  match l with
  | [] => ""
  | [x] => x
  | x :: rest => x ++ sep ++ join sep rest
  end.

(* ===================================================================== *)
(** * The calendar of the runtime's [Date] *)
(* ===================================================================== *)

Module DateModel.

Definition msPerDay : Z := 86400000.

Definition DayFromYear (y : Z) : Z :=
  365 * (y - 1970) + (y - 1969) / 4 - (y - 1901) / 100 + (y - 1601) / 400.

Definition leap_year (y : Z) : bool :=
  ((y mod 4 =? 0) && negb (y mod 100 =? 0)) || (y mod 400 =? 0).

(** Day number of the first day of month [m] (0-based) within a year. *)
Definition month_start (leap : bool) (m : Z) : Z :=
  let l := if leap then 1 else 0 in
  match m with
  | 0 => 0
  | 1 => 31
  | 2 => 59 + l
  | 3 => 90 + l
  | 4 => 120 + l
  | 5 => 151 + l
  | 6 => 181 + l
  | 7 => 212 + l
  | 8 => 243 + l
  | 9 => 273 + l
  | 10 => 304 + l
  | 11 => 334 + l
  | _ => 365 + l
  end.

(** Days of month [m] (1-based) in year [y]. *)
Definition DaysInMonth (y m : Z) : Z :=
  month_start (leap_year y) m - month_start (leap_year y) (m - 1).

Definition Day (t : Z) : Z := t / msPerDay.

Fixpoint year_search (fuel : nat) (y day : Z) : Z :=
  match fuel with
  | O => y
  | S fuel' => if DayFromYear y <=? day then y else year_search fuel' (y - 1) day
  end.

(** [YearFromTime]: the largest year whose first day is not after [t],
    searched downwards from an upper estimate. *)
Definition YearFromTime (t : Z) : Z :=
  let day := Day t in
  year_search (Z.to_nat (Z.abs day / 100000 + 4))
    (1971 + (if 0 <=? day then day / 365 else day / 366)) day.

Definition DayWithinYear (t : Z) : Z := Day t - DayFromYear (YearFromTime t).

Definition InLeapYear (t : Z) : bool := leap_year (YearFromTime t).

(** The month (0-based) that holds day [d] of a year. *)
Definition month_of (leap : bool) (d : Z) : Z :=
  if d <? month_start leap 1 then 0
  else if d <? month_start leap 2 then 1
  else if d <? month_start leap 3 then 2
  else if d <? month_start leap 4 then 3
  else if d <? month_start leap 5 then 4
  else if d <? month_start leap 6 then 5
  else if d <? month_start leap 7 then 6
  else if d <? month_start leap 8 then 7
  else if d <? month_start leap 9 then 8
  else if d <? month_start leap 10 then 9
  else if d <? month_start leap 11 then 10
  else 11.

(** [MonthFromTime], 0-based. *)
Definition MonthFromTime (t : Z) : Z :=
  month_of (InLeapYear t) (DayWithinYear t).

Definition DateFromTime (t : Z) : Z :=
  DayWithinYear t - month_start (InLeapYear t) (MonthFromTime t) + 1.

(** [MakeDay] for a month in 0..11. *)
Definition MakeDay (year month date : Z) : Z :=
  DayFromYear year + month_start (leap_year year) month + date - 1.

(** The time value of [new Date("YYYY-MM-DD")] for the three fields read
    from the string, [None] for an invalid date. A month outside 1..12 or a
    day outside 1..31 is always invalid; a day beyond the end of its month
    is invalid or rolls over, as the runtime has it. *)
Definition parse_date_only (rt : runtime) (y m d : Z) : option Z :=
  if (1 <=? m) && (m <=? 12) && (1 <=? d) &&
     (d <=? (if Date_rolls_over rt then 31 else DaysInMonth y m))
  then Some (msPerDay * MakeDay y (m - 1) d)
  else None.

End DateModel.

(* ===================================================================== *)
(** * validation.ts *)
(* ===================================================================== *)

Module Validation.

Definition validateRequiredString (value : JS.value) (fieldName : string)
  : result unit :=
  match value with
  | VStr s =>
      if (String.length (trim s) =? 0)%nat
      then Throw (ValidationError fieldName "must be a non-empty string")
      else Ok tt
  | _ => Throw (ValidationError fieldName "must be a non-empty string")
  end.

Definition validatePositiveNumber (value : JS.value) (fieldName : string)
  : result unit :=
  match value with
  | VNum x =>
      if (x <=? 0)%float || negb (isFinite x)
      then Throw (ValidationError fieldName "must be a positive number")
      else Ok tt
  | _ => Throw (ValidationError fieldName "must be a positive number")
  end.

Definition validateNonNegativeNumber (value : JS.value) (fieldName : string)
  : result unit :=
  match value with
  | VNum x =>
      if (x <? 0)%float || negb (isFinite x)
      then Throw (ValidationError fieldName "must be a non-negative number")
      else Ok tt
  | _ => Throw (ValidationError fieldName "must be a non-negative number")
  end.

(** [/^\d{4}-\d{2}-\d{2}$/.test(s)] *)
Definition dateRegex_test (s : string) : bool :=
  match chars s with
  | [y1; y2; y3; y4; h1; m1; m2; h2; d1; d2] =>
      is_digit y1 && is_digit y2 && is_digit y3 && is_digit y4 &&
      Ascii.eqb h1 "-" && is_digit m1 && is_digit m2 &&
      Ascii.eqb h2 "-" && is_digit d1 && is_digit d2
  | _ => false
  end.

(** [s.split("-")] *)
Fixpoint split_dash (l : list ascii) : list (list ascii) :=
  match l with
  | [] => [[]]
  | c :: rest =>
      if Ascii.eqb c "-" then [] :: split_dash rest
      else match split_dash rest with
           | part :: parts => (c :: part) :: parts
           | [] => [[c]]
           end
  end.

(** The fields of a string that matched [dateRegex]: what the date parser
    reads, and what [value.split("-").map(Number)] yields. *)
Definition date_fields (s : string) : Z * Z * Z :=
  match map digits_val (split_dash (chars s)) with
  | [year; month; day] => (year, month, day)
  | _ => (0, 0, 0)
  end.

Definition validateDateString (rt : runtime) (value : JS.value)
  (fieldName : string) : result unit :=
  match value with
  | VStr s =>
      if negb (dateRegex_test s)
      then Throw (ValidationError fieldName "must be in YYYY-MM-DD format")
      else
        let '(year, month, day) := date_fields s in
        match DateModel.parse_date_only rt year month day with
        | None => Throw (ValidationError fieldName "is not a valid date")
        | Some date =>
            if negb (DateModel.YearFromTime date =? year) ||
               negb (DateModel.MonthFromTime date + 1 =? month) ||
               negb (DateModel.DateFromTime date =? day)
            then Throw (ValidationError fieldName "is not a valid date")
            else Ok tt
        end
  | _ => Throw (ValidationError fieldName "must be a string")
  end.

Definition is_hex (c : ascii) : bool :=
  let n := code c in
  is_digit c || ((97 <=? n)%N && (n <=? 102)%N) || ((65 <=? n)%N && (n <=? 70)%N).

Fixpoint hex_group (n : nat) (l : list ascii) : option (list ascii) :=
  match n, l with
  | O, _ => Some l
  | S n', c :: rest => if is_hex c then hex_group n' rest else None
  | S _, [] => None
  end.

Definition dash_then (k : list ascii -> bool) (l : list ascii) : bool :=
  match l with
  | c :: rest => Ascii.eqb c "-" && k rest
  | [] => false
  end.

(** The 8-4-4-4-12 pattern of [uuidRegex], case-insensitive. *)
Definition uuidRegex_test (s : string) : bool :=
  let group n (k : list ascii -> bool) l :=
    match hex_group n l with Some rest => k rest | None => false end in
  group 8%nat (dash_then (group 4%nat (dash_then (group 4%nat (dash_then
    (group 4%nat (dash_then (group 12%nat
       (fun rest => match rest with [] => true | _ => false end)))))))))
    (chars s).

Definition validateUUID (value : JS.value) (fieldName : string) : result unit :=
  match value with
  | VStr s =>
      if uuidRegex_test s then Ok tt
      else Throw (ValidationError fieldName "is not a valid UUID")
  | _ => Throw (ValidationError fieldName "must be a string")
  end.

Definition validateEnum (value : JS.value) (fieldName : string)
  (allowedValues : list string) : result unit :=
  match value with
  | VStr s =>
      if includes allowedValues s then Ok tt
      else Throw (ValidationError fieldName
                    ("must be one of: " ++ join ", " allowedValues))
  | _ => Throw (ValidationError fieldName "must be a string")
  end.

(** The loop of [validateArray]: a [ValidationError] of the item validator
    is thrown again with the item's position put before its field; any
    other error is thrown as it is. *)
Fixpoint validate_items (rt : runtime) (fieldName : string)
  (itemValidator : JS.value -> N -> result unit)
  (items : list JS.value) (index : N) : result unit :=
  match items with
  | [] => Ok tt
  | item :: rest =>
      match itemValidator item index with
      | Ok _ => validate_items rt fieldName itemValidator rest (index + 1)%N
      | Throw (ValidationError field message as error) =>
          Throw (ValidationError
                   (fieldName ++ "[" ++ decimal index ++ "]." ++ field)
                   (remove_first (validation_text field "")
                      (exn_message rt error)))
      | Throw error => Throw error
      end
  end.

Definition validateArray (rt : runtime) (value : JS.value) (fieldName : string)
  (itemValidator : option (JS.value -> N -> result unit)) : result unit :=
  match value with
  | VArr items =>
      match items with
      | [] => Throw (ValidationError fieldName "must not be empty")
      | _ =>
          match itemValidator with
          | Some validator => validate_items rt fieldName validator items 0%N
          | None => Ok tt
          end
      end
  | _ => Throw (ValidationError fieldName "must be an array")
  end.

Definition validateInvoiceService (value : JS.value) (index : N) : result unit :=
  if negb (truthy value) || negb (match typeof value with TObject => true | _ => false end)
  then Throw (ValidationError ("services[" ++ decimal index ++ "]")
                "must be an object")
  else
    let service := value in
    validateRequiredString (get service "name") "name" ;;
    when (is_undefined (get service "tax_symbol") ||
          (negb (is_string (get service "tax_symbol")) &&
           negb (is_number (get service "tax_symbol"))))
      (Throw (ValidationError "tax_symbol"
                "is required and must be a string or number")) ;;
    when (negb (is_undefined (get service "net_price")))
      (validateNonNegativeNumber (get service "net_price") "net_price") ;;
    when (negb (is_undefined (get service "unit_net_price")))
      (validateNonNegativeNumber (get service "unit_net_price") "unit_net_price") ;;
    when (negb (is_undefined (get service "gross_price")))
      (validateNonNegativeNumber (get service "gross_price") "gross_price") ;;
    when (negb (is_undefined (get service "quantity")))
      (validatePositiveNumber (get service "quantity") "quantity") ;;
    when (is_undefined (get service "net_price") &&
          is_undefined (get service "unit_net_price") &&
          is_undefined (get service "gross_price"))
      (Throw (ValidationError "services"
                "each service must have at least one of: net_price, unit_net_price, or gross_price")).

Definition validatePaginationParams (params : JS.value) : result unit :=
  when (negb (is_undefined (get params "offset")))
    (validateNonNegativeNumber (get params "offset") "offset") ;;
  when (negb (is_undefined (get params "limit")))
    (validatePositiveNumber (get params "limit") "limit" ;;
     when (match get params "limit" with
           | VNum limit => (100 <? limit)%float
           | _ => false
           end)
       (Throw (ValidationError "limit" "must not exceed 100"))).

Fixpoint validateRequiredFields (data : JS.value) (requiredFields : list string)
  : result unit :=
  match requiredFields with
  | [] => Ok tt
  | field :: rest =>
      match get data field with
      | VUndefined | VNull => Throw (ValidationError field "is required")
      | _ => validateRequiredFields data rest
      end
  end.

(** [sanitizeParams]: the entries whose value is neither [undefined] nor
    [null], in order. *)
Definition sanitizeParams (params : list (string * JS.value))
  : list (string * JS.value) :=
  fold_left
    (fun sanitized (entry : string * JS.value) =>
       let (key, value) := entry in
       match value with
       | VUndefined | VNull => sanitized
       | _ => obj_set sanitized key value
       end)
    params [].

End Validation.

(* ===================================================================== *)
(** * api-client.ts *)
(* ===================================================================== *)

Module ApiClient.

(** [ToString] of a value, as a template literal, [String(v)] or
    [Array.prototype.join] applies it. *)
Fixpoint to_string (rt : runtime) (v : value) : string :=
  match v with
  | VUndefined => "undefined"
  | VNull => "null"
  | VBool b => if b then "true" else "false"
  | VNum x => number_to_string rt x
  | VStr s => s
  | VArr items =>
      join ","
        (map (fun i => match i with
                       | VUndefined | VNull => ""
                       | _ => to_string rt i
                       end) items)
  | VObj _ => "[object Object]"
  end.

(** [items.join(sep)]: [undefined] and [null] elements print as nothing. *)
Definition array_join (rt : runtime) (sep : string) (items : list value) : string :=
  join sep
    (map (fun i => match i with
                   | VUndefined | VNull => ""
                   | _ => to_string rt i
                   end) items).

Definition newline : string := String (ascii_of_nat 10) "".

(** The message found in a decoded error body, if any. *)
Definition body_message (rt : runtime) (data : value) : option string :=
  if truthy data && match typeof data with TObject => true | _ => false end
  then
    match get data "message" with
    | VStr s => Some s
    | _ =>
        match get data "error" with
        | VStr s => Some s
        | _ =>
            match get data "errors" with
            | VStr s => Some s
            | VArr (e :: rest) => Some (array_join rt ", " (e :: rest))
            | _ => None
            end
        end
    end
  else None.

Definition status_message (status : N) : string :=
  match status with
  | 400%N => "Bad request: Invalid parameters"
  | 401%N => "Unauthorized: Invalid or missing API key"
  | 403%N => "Forbidden: Insufficient permissions"
  | 404%N => "Not found: Resource does not exist"
  | 422%N => "Unprocessable entity: Validation failed"
  | 429%N => "Too many requests: Rate limit exceeded"
  | 500%N => "Internal server error"
  | 503%N => "Service unavailable: API is temporarily down"
  | _ => "API error: " ++ decimal status
  end.

Definition extractErrorMessage (rt : runtime) (error : AxiosError) : string :=
  match response error with
  | Some (status, data) =>
      if (status =? 0)%N
      then (if String.eqb (axios_message error) ""
            then "Network error occurred" else axios_message error)
      else
        match body_message rt data with
        | Some message => message
        | None => status_message status
        end
  | None =>
      if String.eqb (axios_message error) ""
      then "Network error occurred" else axios_message error
  end.

Definition status_code (status : option N) : ErrorCode :=
  match status with
  | Some 400%N | Some 422%N => InvalidParams
  | Some 401%N | Some 403%N => InvalidRequest
  | Some 404%N => InvalidRequest
  | _ => InternalError
  end.

(** [handleApiError] never returns: the result is the error it throws. *)
Definition handleApiError (rt : runtime) (error : exn) : exn :=
  match error with
  | ValidationError _ _ | McpError _ _ => error
  | Axios axiosError =>
      let status := option_map fst (response axiosError) in
      let data := match response axiosError with
                  | Some (_, d) => d
                  | None => VUndefined
                  end in
      let message := extractErrorMessage rt axiosError in
      McpError (status_code status)
        ("inFakt API error ("
           ++ match status with Some s => decimal s | None => "unknown" end
           ++ "): " ++ message
           ++ (if truthy data
               then newline ++ "Details: "
                      ++ match JSON_stringify rt data with
                         | Some text => text
                         | None => "undefined"
                         end
               else ""))
  | InfaktApiError statusCode message =>
      McpError InternalError
        ("inFakt API error (" ++ number_to_string rt statusCode ++ "): " ++ message)
  | Error message | ConfigurationError message =>
      McpError InternalError ("Unexpected error: " ++ message)
  | Thrown v =>
      McpError InternalError ("Unexpected error: " ++ to_string rt v)
  end.

Inductive method := GET | POST | PUT | DELETE.

(** One outbound call: verb, path, body and query parameters
    ([undefined] when the call has none). *)
Record request := {
  verb : method;
  url : string;
  data : value;
  params : value
}.

(** The remote service behind the HTTP client: a decoded body for a call
    that succeeds, the client's error otherwise. *)
Record service := {
  json : request -> result value;
  binary : request -> result (list ascii)
}.

(** [ApiClient.get], [post], [put] and [delete]: the decoded body, or the
    translated error. *)
Definition request_json (rt : runtime) (svc : service) (req : request)
  : result value :=
  match json svc req with
  | Ok body => Ok body
  | Throw error => Throw (handleApiError rt error)
  end.

(** [ApiClient.getBinary] *)
Definition request_binary (rt : runtime) (svc : service) (req : request)
  : result (list ascii) :=
  match binary svc req with
  | Ok bytes => Ok bytes
  | Throw error => Throw (handleApiError rt error)
  end.

End ApiClient.

(* ===================================================================== *)
(** * config.ts *)
(* ===================================================================== *)

Module Config.

(** [process.env] *)
Definition environment := string -> option string.

Definition PRODUCTION : string := "https://api.infakt.pl/api/v3".
Definition SANDBOX : string := "https://api.sandbox-infakt.pl/api/v3".

Record ServerConfig := {
  apiKey : string;
  baseUrl : string;
  useSandbox : bool
}.

Definition requireEnvVar (env : environment) (name : string) : result string :=
  match env name with
  | Some value =>
      if String.eqb value ""
      then Throw (ConfigurationError
                    ("Missing required environment variable: " ++ name))
      else Ok value
  | None =>
      Throw (ConfigurationError
               ("Missing required environment variable: " ++ name))
  end.

Definition parseBooleanEnvVar (env : environment) (name : string)
  (defaultValue : bool) : bool :=
  match env name with
  | None => defaultValue
  | Some value => String.eqb value "true" || String.eqb value "1"
  end.

Definition validateApiKey (apiKey : string) : result unit :=
  if (String.length apiKey <? 10)%nat
  then Throw (ConfigurationError
                "Invalid API key format: key appears to be too short")
  else Ok tt.

Definition validateUrl (rt : runtime) (url : string) : result unit :=
  if URL_parses rt url then Ok tt
  else Throw (ConfigurationError ("Invalid URL format: " ++ url)).

Definition loadConfig (rt : runtime) (env : environment) : result ServerConfig :=
  bind (requireEnvVar env "INFAKT_API_KEY") (fun apiKey =>
  validateApiKey apiKey ;;
  let useSandbox := parseBooleanEnvVar env "INFAKT_USE_SANDBOX" false in
  let customBaseUrl := env "INFAKT_BASE_URL" in
  let baseUrl :=
    if useSandbox then SANDBOX
    else match customBaseUrl with
         | Some url => url
         | None => PRODUCTION
         end in
  validateUrl rt baseUrl ;;
  Ok {| apiKey := apiKey; baseUrl := baseUrl; useSandbox := useSandbox |}).

End Config.

(* ===================================================================== *)
(** * The operation handlers *)
(* ===================================================================== *)

Module Handlers.

Import Validation ApiClient.

(** The outward payload: a sequence of text blocks; a block's text is
    [None] when [JSON.stringify] answered [undefined]. *)
Record ToolResponse := { content : list (option string) }.

(** What a handler does once its arguments passed validation: one call to
    the remote client, and the response built from the result. A handler
    that throws before the call is a [Throw]. *)
Inductive call :=
| CallJson (req : request) (respond : value -> ToolResponse)
| CallBinary (req : request) (respond : list ascii -> ToolResponse).

Definition createTextResponse (text : string) : ToolResponse :=
  {| content := [Some text] |}.

Definition optional (v : value) (check : result unit) : result unit :=
  when (negb (is_undefined v)) check.

(** [if (v) { check; filters[key] = v }] *)
Definition add_filter (v : value) (check : result unit) (key : string)
  (filters : list (string * value)) : result (list (string * value)) :=
  if truthy v then check ;; Ok (obj_set filters key v) else Ok filters.

(** [if (Object.keys(filters).length > 0) queryParams.q = filters] *)
Definition with_filters (queryParams filters : list (string * value)) : value :=
  match filters with
  | [] => VObj queryParams
  | _ => VObj (obj_set queryParams "q" (VObj filters))
  end.

(** [const { key, ...rest } = params] *)
Definition rest_without (key : string) (params : value) : list (string * value) :=
  match params with
  | VObj fields => filter (fun f => negb (String.eqb (fst f) key)) fields
  | _ => []
  end.

Definition entries (v : value) : list (string * value) :=
  match v with
  | VObj fields => fields
  | _ => []
  end.

Definition base64_alphabet : string :=
  "ABCDEFGHIJKLMNOPQRSTUVWXYZabcdefghijklmnopqrstuvwxyz0123456789+/".

Definition base64_digit (n : N) : ascii :=
  match String.get (N.to_nat n) base64_alphabet with
  | Some c => c
  | None => "="%char
  end.

(** [Buffer.from(bytes).toString("base64")] *)
Fixpoint base64 (bytes : list ascii) : list ascii :=
  match bytes with
  | a :: b :: c :: rest =>
      let n := (code a * 65536 + code b * 256 + code c)%N in
      base64_digit (n / 262144) :: base64_digit ((n / 4096) mod 64)
      :: base64_digit ((n / 64) mod 64) :: base64_digit (n mod 64)
      :: base64 rest
  | [a; b] =>
      let n := (code a * 65536 + code b * 256)%N in
      [base64_digit (n / 262144); base64_digit ((n / 4096) mod 64);
       base64_digit ((n / 64) mod 64); "="%char]
  | [a] =>
      let n := (code a * 65536)%N in
      [base64_digit (n / 262144); base64_digit ((n / 4096) mod 64);
       "="%char; "="%char]
  | [] => []
  end.

(** ** invoice-handlers.ts *)

Module Invoice.

Definition PAYMENT_METHODS : list string :=
  [ "cash"; "transfer"; "card"; "barter"; "check"; "bill_of_sale";
    "delivery"; "compensation"; "accredited"; "paypal"; "payu"; "tpay";
    "przelewy24"; "dotpay"; "other" ].

Definition INVOICE_STATUSES : list string := ["draft"; "paid"; "printed"; "sent"].

Definition DOCUMENT_TYPES : list string :=
  [ "original"; "copy"; "original_copy"; "duplicate"; "original_duplicate";
    "copy_duplicate"; "regular"; "double_regular" ].

Definition LOCALES : list string := ["pl"; "en"; "pe"].

Definition createJsonResponse (rt : runtime) (data : value) : ToolResponse :=
  let convertedData := convertAllMonetaryFields data in
  {| content := [JSON_stringify rt convertedData] |}.

Definition createInvoice (rt : runtime) (args : value) : result call :=
  let params := args in
  validateRequiredString (get params "client_company_name") "client_company_name" ;;
  validateRequiredString (get params "payment_method") "payment_method" ;;
  validateEnum (get params "payment_method") "payment_method" PAYMENT_METHODS ;;
  when (negb (truthy (get params "services")))
    (Throw (Error "services is required")) ;;
  validateArray rt (get params "services") "services" (Some validateInvoiceService) ;;
  optional (get params "status")
    (validateEnum (get params "status") "status" INVOICE_STATUSES) ;;
  when (match get params "status" with
        | VStr status => String.eqb status "paid"
        | _ => false
        end)
    (when (negb (truthy (get params "paid_date")))
       (Throw (Error "paid_date is required when status is 'paid'")) ;;
     validateDateString rt (get params "paid_date") "paid_date") ;;
  optional (get params "invoice_date")
    (validateDateString rt (get params "invoice_date") "invoice_date") ;;
  optional (get params "sale_date")
    (validateDateString rt (get params "sale_date") "sale_date") ;;
  optional (get params "payment_date")
    (validateDateString rt (get params "payment_date") "payment_date") ;;
  Ok (CallJson {| verb := POST; url := "/async/invoices.json";
                  data := VObj [("invoice", params)]; params := VUndefined |}
        (createJsonResponse rt)).

Definition checkInvoiceStatus (rt : runtime) (args : value) : result call :=
  let params := args in
  validateRequiredString (get params "task_reference_number") "task_reference_number" ;;
  Ok (CallJson {| verb := GET;
                  url := "/async/invoices/status/"
                           ++ to_string rt (get params "task_reference_number")
                           ++ ".json";
                  data := VUndefined; params := VUndefined |}
        (createJsonResponse rt)).

Definition listInvoices (rt : runtime) (args : value) : result call :=
  let params := args in
  validatePaginationParams params ;;
  let queryParams :=
    sanitizeParams [("offset", get params "offset"); ("limit", get params "limit");
                    ("order", get params "order"); ("fields", get params "fields")] in
  bind (add_filter (get params "number")
          (validateRequiredString (get params "number") "number")
          "number_eq" []) (fun filters =>
  bind (add_filter (get params "client_company_name")
          (validateRequiredString (get params "client_company_name")
             "client_company_name")
          "client_company_name_cont" filters) (fun filters =>
  bind (add_filter (get params "status")
          (validateEnum (get params "status") "status" INVOICE_STATUSES)
          "status_eq" filters) (fun filters =>
  bind (add_filter (get params "invoice_date_from")
          (validateDateString rt (get params "invoice_date_from") "invoice_date_from")
          "invoice_date_gteq" filters) (fun filters =>
  bind (add_filter (get params "invoice_date_to")
          (validateDateString rt (get params "invoice_date_to") "invoice_date_to")
          "invoice_date_lteq" filters) (fun filters =>
  Ok (CallJson {| verb := GET; url := "/invoices.json"; data := VUndefined;
                  params := with_filters queryParams filters |}
        (createJsonResponse rt))))))).

Definition getInvoice (rt : runtime) (args : value) : result call :=
  let params := args in
  validateUUID (get params "invoice_uuid") "invoice_uuid" ;;
  let queryParams := sanitizeParams [("fields", get params "fields")] in
  Ok (CallJson {| verb := GET;
                  url := "/invoices/" ++ to_string rt (get params "invoice_uuid")
                           ++ ".json";
                  data := VUndefined;
                  params := VObj queryParams |}
        (createJsonResponse rt)).

Definition updateInvoice (rt : runtime) (args : value) : result call :=
  let params := args in
  validateUUID (get params "invoice_uuid") "invoice_uuid" ;;
  optional (get params "payment_method")
    (validateEnum (get params "payment_method") "payment_method" PAYMENT_METHODS) ;;
  optional (get params "invoice_date")
    (validateDateString rt (get params "invoice_date") "invoice_date") ;;
  optional (get params "sale_date")
    (validateDateString rt (get params "sale_date") "sale_date") ;;
  optional (get params "payment_date")
    (validateDateString rt (get params "payment_date") "payment_date") ;;
  optional (get params "services")
    (validateArray rt (get params "services") "services"
       (Some validateInvoiceService)) ;;
  let invoice_uuid := get params "invoice_uuid" in
  let invoiceData := rest_without "invoice_uuid" params in
  Ok (CallJson {| verb := PUT;
                  url := "/invoices/" ++ to_string rt invoice_uuid ++ ".json";
                  data := VObj [("invoice", VObj invoiceData)];
                  params := VUndefined |}
        (createJsonResponse rt)).

Definition deleteInvoice (rt : runtime) (args : value) : result call :=
  let params := args in
  validateUUID (get params "invoice_uuid") "invoice_uuid" ;;
  Ok (CallJson {| verb := DELETE;
                  url := "/invoices/" ++ to_string rt (get params "invoice_uuid")
                           ++ ".json";
                  data := VUndefined; params := VUndefined |}
        (fun _ => createTextResponse
                    ("Invoice " ++ to_string rt (get params "invoice_uuid")
                       ++ " deleted successfully"))).

Definition downloadInvoicePdf (rt : runtime) (args : value) : result call :=
  let params := args in
  validateUUID (get params "invoice_uuid") "invoice_uuid" ;;
  optional (get params "document_type")
    (validateEnum (get params "document_type") "document_type" DOCUMENT_TYPES) ;;
  optional (get params "locale")
    (validateEnum (get params "locale") "locale" LOCALES) ;;
  let queryParams :=
    sanitizeParams [("document_type", get params "document_type");
                    ("locale", get params "locale")] in
  Ok (CallBinary {| verb := GET;
                    url := "/invoices/" ++ to_string rt (get params "invoice_uuid")
                             ++ "/pdf.json";
                    data := VUndefined;
                    params := VObj queryParams |}
        (fun pdfData =>
           let base64Pdf := base64 pdfData in
           {| content :=
                [ Some ("PDF downloaded successfully. Base64 encoded ("
                          ++ decimal (N.of_nat (List.length base64Pdf))
                          ++ " characters). Use base64 decode to save the file.")%string;
                  Some (string_of_list_ascii base64Pdf) ] |})).

Definition sendInvoiceEmail (rt : runtime) (args : value) : result call :=
  let params := args in
  validateUUID (get params "invoice_uuid") "invoice_uuid" ;;
  let invoice_uuid := get params "invoice_uuid" in
  let emailData := rest_without "invoice_uuid" params in
  Ok (CallJson {| verb := POST;
                  url := "/invoices/" ++ to_string rt invoice_uuid
                           ++ "/deliver_via_email.json";
                  data := VObj (sanitizeParams emailData);
                  params := VUndefined |}
        (createJsonResponse rt)).

Definition markInvoicePaid (rt : runtime) (args : value) : result call :=
  let params := args in
  validateUUID (get params "invoice_uuid") "invoice_uuid" ;;
  validateDateString rt (get params "paid_date") "paid_date" ;;
  Ok (CallJson {| verb := POST;
                  url := "/async/invoices/"
                           ++ to_string rt (get params "invoice_uuid")
                           ++ "/paid.json";
                  data := VObj [("paid_date", get params "paid_date")];
                  params := VUndefined |}
        (createJsonResponse rt)).

End Invoice.

(** ** client-handlers.ts *)

Module Client.

Definition BUSINESS_ACTIVITY_KINDS : list string :=
  ["company"; "self_employed"; "private_person"].

Definition createJsonResponse (rt : runtime) (data : value) : ToolResponse :=
  let convertedData := convertAllMonetaryFields data in
  {| content := [JSON_stringify rt convertedData] |}.

Definition listClients (rt : runtime) (args : value) : result call :=
  let params := args in
  validatePaginationParams params ;;
  let queryParams :=
    sanitizeParams [("offset", get params "offset"); ("limit", get params "limit");
                    ("fields", get params "fields")] in
  bind (add_filter (get params "company_name")
          (validateRequiredString (get params "company_name") "company_name")
          "company_name_cont" []) (fun filters =>
  bind (add_filter (get params "nip")
          (validateRequiredString (get params "nip") "nip")
          "nip_eq" filters) (fun filters =>
  bind (add_filter (get params "email")
          (validateRequiredString (get params "email") "email")
          "email_eq" filters) (fun filters =>
  Ok (CallJson {| verb := GET; url := "/clients.json"; data := VUndefined;
                  params := with_filters queryParams filters |}
        (createJsonResponse rt))))).

Definition getClient (rt : runtime) (args : value) : result call :=
  let params := args in
  validatePositiveNumber (get params "client_id") "client_id" ;;
  Ok (CallJson {| verb := GET;
                  url := "/clients/" ++ to_string rt (get params "client_id")
                           ++ ".json";
                  data := VUndefined; params := VUndefined |}
        (createJsonResponse rt)).

Definition createClient (rt : runtime) (args : value) : result call :=
  let params := args in
  validateRequiredString (get params "company_name") "company_name" ;;
  optional (get params "business_activity_kind")
    (validateEnum (get params "business_activity_kind") "business_activity_kind"
       BUSINESS_ACTIVITY_KINDS) ;;
  Ok (CallJson {| verb := POST; url := "/clients.json";
                  data := VObj [("client", params)]; params := VUndefined |}
        (createJsonResponse rt)).

Definition updateClient (rt : runtime) (args : value) : result call :=
  let params := args in
  validatePositiveNumber (get params "client_id") "client_id" ;;
  let client_id := get params "client_id" in
  let clientData := rest_without "client_id" params in
  Ok (CallJson {| verb := PUT;
                  url := "/clients/" ++ to_string rt client_id ++ ".json";
                  data := VObj [("client", VObj clientData)];
                  params := VUndefined |}
        (createJsonResponse rt)).

Definition deleteClient (rt : runtime) (args : value) : result call :=
  let params := args in
  validatePositiveNumber (get params "client_id") "client_id" ;;
  Ok (CallJson {| verb := DELETE;
                  url := "/clients/" ++ to_string rt (get params "client_id")
                           ++ ".json";
                  data := VUndefined; params := VUndefined |}
        (fun _ => createTextResponse
                    ("Client " ++ to_string rt (get params "client_id")
                       ++ " deleted successfully"))).

End Client.

(** ** product-handlers.ts *)

Module Product.

Definition createJsonResponse (rt : runtime) (data : value) : ToolResponse :=
  {| content := [JSON_stringify rt data] |}.

Definition listProducts (rt : runtime) (args : value) : result call :=
  let params := args in
  validatePaginationParams params ;;
  let queryParams :=
    sanitizeParams [("offset", get params "offset"); ("limit", get params "limit");
                    ("fields", get params "fields")] in
  bind (add_filter (get params "name")
          (validateRequiredString (get params "name") "name")
          "name_cont" []) (fun filters =>
  Ok (CallJson {| verb := GET; url := "/products.json"; data := VUndefined;
                  params := with_filters queryParams filters |}
        (createJsonResponse rt))).

Definition getProduct (rt : runtime) (args : value) : result call :=
  let params := args in
  validatePositiveNumber (get params "product_id") "product_id" ;;
  Ok (CallJson {| verb := GET;
                  url := "/products/" ++ to_string rt (get params "product_id")
                           ++ ".json";
                  data := VUndefined; params := VUndefined |}
        (createJsonResponse rt)).

Definition createProduct (rt : runtime) (args : value) : result call :=
  let params := args in
  validateRequiredString (get params "name") "name" ;;
  validatePositiveNumber (get params "unit_net_price") "unit_net_price" ;;
  when (is_undefined (get params "tax_symbol") ||
        (negb (is_string (get params "tax_symbol")) &&
         negb (is_number (get params "tax_symbol"))))
    (Throw (Error "tax_symbol is required and must be a string or number")) ;;
  Ok (CallJson {| verb := POST; url := "/products.json";
                  data := VObj [("product", params)]; params := VUndefined |}
        (createJsonResponse rt)).

Definition updateProduct (rt : runtime) (args : value) : result call :=
  let params := args in
  validatePositiveNumber (get params "product_id") "product_id" ;;
  optional (get params "unit_net_price")
    (validatePositiveNumber (get params "unit_net_price") "unit_net_price") ;;
  let product_id := get params "product_id" in
  let productData := rest_without "product_id" params in
  Ok (CallJson {| verb := PUT;
                  url := "/products/" ++ to_string rt product_id ++ ".json";
                  data := VObj [("product", VObj productData)];
                  params := VUndefined |}
        (createJsonResponse rt)).

Definition deleteProduct (rt : runtime) (args : value) : result call :=
  let params := args in
  validatePositiveNumber (get params "product_id") "product_id" ;;
  Ok (CallJson {| verb := DELETE;
                  url := "/products/" ++ to_string rt (get params "product_id")
                           ++ ".json";
                  data := VUndefined; params := VUndefined |}
        (fun _ => createTextResponse
                    ("Product " ++ to_string rt (get params "product_id")
                       ++ " deleted successfully"))).

End Product.

(** ** reference-handlers.ts *)

Module Reference.

Definition createJsonResponse (rt : runtime) (data : value) : ToolResponse :=
  let convertedData := convertAllMonetaryFields data in
  {| content := [JSON_stringify rt convertedData] |}.

Definition read_only (rt : runtime) (path : string) : result call :=
  Ok (CallJson {| verb := GET; url := path; data := VUndefined;
                  params := VUndefined |}
        (createJsonResponse rt)).

Definition getVatRates (rt : runtime) (_args : value) : result call :=
  read_only rt "/vat_rates.json".

Definition getBankAccounts (rt : runtime) (_args : value) : result call :=
  read_only rt "/bank_accounts.json".

Definition getAccountInfo (rt : runtime) (_args : value) : result call :=
  read_only rt "/account.json".

End Reference.

(** ** cost-handlers.ts *)

Module Cost.

Definition createJsonResponse (rt : runtime) (data : value) : ToolResponse :=
  {| content := [JSON_stringify rt data] |}.

Definition listCosts (rt : runtime) (args : value) : result call :=
  let params := args in
  validatePaginationParams params ;;
  let queryParams :=
    sanitizeParams [("offset", get params "offset"); ("limit", get params "limit");
                    ("fields", get params "fields")] in
  Ok (CallJson {| verb := GET; url := "/documents/costs.json"; data := VUndefined;
                  params := VObj queryParams |}
        (createJsonResponse rt)).

Definition getCost (rt : runtime) (args : value) : result call :=
  let params := args in
  validateUUID (get params "cost_uuid") "cost_uuid" ;;
  Ok (CallJson {| verb := GET;
                  url := "/documents/costs/" ++ to_string rt (get params "cost_uuid")
                           ++ ".json";
                  data := VUndefined; params := VUndefined |}
        (createJsonResponse rt)).

End Cost.

End Handlers.

(* ===================================================================== *)
(** * index.ts: the tool registry and the dispatcher *)
(* ===================================================================== *)

Module Dispatcher.

Import ApiClient Handlers.

(** The resource group a handler belongs to (the module that defines it). *)
Inductive group := Invoices | Clients | Products | ReferenceData | Costs.

Inductive tool :=
| createInvoice | checkInvoiceStatus | listInvoices | getInvoice
| updateInvoice | deleteInvoice | downloadInvoicePdf | sendInvoiceEmail
| markInvoicePaid
| listClients | getClient | createClient | updateClient | deleteClient
| listProducts | getProduct | createProduct | updateProduct | deleteProduct
| getVatRates | getBankAccounts | getAccountInfo
| listCosts | getCost.

Definition group_of (t : tool) : group :=
  match t with
  | createInvoice | checkInvoiceStatus | listInvoices | getInvoice
  | updateInvoice | deleteInvoice | downloadInvoicePdf | sendInvoiceEmail
  | markInvoicePaid => Invoices
  | listClients | getClient | createClient | updateClient | deleteClient => Clients
  | listProducts | getProduct | createProduct | updateProduct
  | deleteProduct => Products
  | getVatRates | getBankAccounts | getAccountInfo => ReferenceData
  | listCosts | getCost => Costs
  end.

Definition handler (t : tool) : runtime -> value -> result call :=
  match t with
  | createInvoice => Invoice.createInvoice
  | checkInvoiceStatus => Invoice.checkInvoiceStatus
  | listInvoices => Invoice.listInvoices
  | getInvoice => Invoice.getInvoice
  | updateInvoice => Invoice.updateInvoice
  | deleteInvoice => Invoice.deleteInvoice
  | downloadInvoicePdf => Invoice.downloadInvoicePdf
  | sendInvoiceEmail => Invoice.sendInvoiceEmail
  | markInvoicePaid => Invoice.markInvoicePaid
  | listClients => Client.listClients
  | getClient => Client.getClient
  | createClient => Client.createClient
  | updateClient => Client.updateClient
  | deleteClient => Client.deleteClient
  | listProducts => Product.listProducts
  | getProduct => Product.getProduct
  | createProduct => Product.createProduct
  | updateProduct => Product.updateProduct
  | deleteProduct => Product.deleteProduct
  | getVatRates => Reference.getVatRates
  | getBankAccounts => Reference.getBankAccounts
  | getAccountInfo => Reference.getAccountInfo
  | listCosts => Cost.listCosts
  | getCost => Cost.getCost
  end.

(** [TOOL_HANDLERS], in the order of the source. *)
Definition TOOL_HANDLERS : list (string * tool) :=
  [ ("infakt_create_invoice", createInvoice);
    ("infakt_check_invoice_status", checkInvoiceStatus);
    ("infakt_list_invoices", listInvoices);
    ("infakt_get_invoice", getInvoice);
    ("infakt_update_invoice", updateInvoice);
    ("infakt_delete_invoice", deleteInvoice);
    ("infakt_download_invoice_pdf", downloadInvoicePdf);
    ("infakt_send_invoice_email", sendInvoiceEmail);
    ("infakt_mark_invoice_paid", markInvoicePaid);
    ("infakt_list_clients", listClients);
    ("infakt_get_client", getClient);
    ("infakt_create_client", createClient);
    ("infakt_update_client", updateClient);
    ("infakt_delete_client", deleteClient);
    ("infakt_list_products", listProducts);
    ("infakt_get_product", getProduct);
    ("infakt_create_product", createProduct);
    ("infakt_update_product", updateProduct);
    ("infakt_delete_product", deleteProduct);
    ("infakt_get_vat_rates", getVatRates);
    ("infakt_get_bank_accounts", getBankAccounts);
    ("infakt_get_account_info", getAccountInfo);
    ("infakt_list_costs", listCosts);
    ("infakt_get_cost", getCost) ].

Fixpoint find_tool (name : string) (table : list (string * tool)) : option tool :=
  match table with
  | [] => None
  | (n, t) :: rest => if String.eqb name n then Some t else find_tool name rest
  end.

(** A handler run against the remote service: [await handler(apiClient, args)]. *)
Definition run (rt : runtime) (svc : service) (c : result call)
  : result ToolResponse :=
  match c with
  | Throw e => Throw e
  | Ok (CallJson req respond) =>
      match request_json rt svc req with
      | Ok body => Ok (respond body)
      | Throw e => Throw e
      end
  | Ok (CallBinary req respond) =>
      match request_binary rt svc req with
      | Ok bytes => Ok (respond bytes)
      | Throw e => Throw e
      end
  end.

Definition handleToolCall (rt : runtime) (svc : service) (name : string)
  (args : value) : result ToolResponse :=
  match find_tool name TOOL_HANDLERS with
  | None =>
      Throw (McpError MethodNotFound
               ("Unknown tool: " ++ name ++ ". Available tools: "
                  ++ join ", " (map fst TOOL_HANDLERS)))
  | Some t =>
      match run rt svc (handler t rt args) with
      | Ok response => Ok response
      | Throw error => Throw (handleApiError rt error)
      end
  end.

End Dispatcher.

(* ===================================================================== *)
(** * currency.ts on the object heap

    The same function with objects and arrays as mutable cells of a store:
    reading [Object.entries], allocating [converted] (or the array that
    [map] returns) and every property write are explicit, so that what the
    function leaves untouched can be stated. *)
(* ===================================================================== *)

Module Heap.

Definition loc := nat.

Inductive hval : Type :=
| HUndefined
| HNull
| HBool (b : bool)
| HNum (x : float)
| HStr (s : string)
| HRef (l : loc).

Inductive cell : Type :=
| CArr (items : list hval)
| CObj (fields : list (string * hval)).

Definition heap := list cell.

(** Allocation appends a cell; its address is the old size of the store. *)
Definition alloc (h : heap) (c : cell) : heap * loc := (h ++ [c], List.length h).

Fixpoint update {A : Type} (l : list A) (n : nat) (f : A -> A) : list A :=
  match l, n with
  | [], _ => []
  | x :: rest, O => f x :: rest
  | x :: rest, S n' => x :: update rest n' f
  end.

(** [o[key] = v] on the object at [l]. *)
Definition write_prop (h : heap) (l : loc) (key : string) (v : hval) : heap :=
  update h l (fun c => match c with
                       | CObj fields => CObj (obj_set fields key v)
                       | CArr _ => c
                       end).

(** [a[k] = v] on the array at [l], for an index below its length. *)
Definition write_index (h : heap) (l : loc) (k : nat) (v : hval) : heap :=
  update h l (fun c => match c with
                       | CArr items => CArr (update items k (fun _ => v))
                       | CObj _ => c
                       end).

(** [a[k]] on the array at [l]. *)
Definition read_index (h : heap) (l : loc) (k : nat) : option hval :=
  match nth_error h l with
  | Some (CArr items) => nth_error items k
  | _ => None
  end.

Definition convert_monetary (value : hval) : hval :=
  match value with
  | HNum x => HNum (groszeToPLN (ANum x))
  | HStr s => HNum (groszeToPLN (AStr s))
  | _ => value
  end.

(** [convertAllMonetaryFields] with the store threaded through. [fuel]
    bounds the nesting depth that is followed; [None] is fuel exhausted or
    a dangling reference. *)
Fixpoint convertAllMonetaryFields (fuel : nat) (h : heap) (data : hval)
  {struct fuel} : option (heap * hval) :=
  match fuel with
  | O => None
  | S fuel' =>
      match data with
      | HRef l =>
          match nth_error h l with
          | None => None
          | Some (CArr items) =>
              (* data.map(item => convertAllMonetaryFields(item)) *)
              let (h0, a) := alloc h (CArr (repeat HUndefined (List.length items))) in
              option_map (fun h' => (h', HRef a))
                (fold_left
                   (fun acc k =>
                      match acc with
                      | None => None
                      | Some hc =>
                          match read_index hc l k with
                          | None => None
                          | Some item =>
                              match convertAllMonetaryFields fuel' hc item with
                              | None => None
                              | Some (h1, v) => Some (write_index h1 a k v)
                              end
                          end
                      end)
                   (seq 0 (List.length items)) (Some h0))
          | Some (CObj obj) =>
              (* const converted = {}; for (const [key, value] of Object.entries(obj)) *)
              let (h0, converted) := alloc h (CObj []) in
              option_map (fun h' => (h', HRef converted))
                (fold_left
                   (fun acc (entry : string * hval) =>
                      let (key, value) := entry in
                      match acc with
                      | None => None
                      | Some hc =>
                          if includes MONETARY_FIELDS key
                          then Some (write_prop hc converted key (convert_monetary value))
                          else
                            match convertAllMonetaryFields fuel' hc value with
                            | None => None
                            | Some (h1, v) => Some (write_prop h1 converted key v)
                            end
                      end)
                   obj (Some h0))
          end
      | _ => Some (h, data)
      end
  end.


End Heap.

(* ===================================================================== *)
(** * Notions used in the statements *)
(* ===================================================================== *)


(** Objects of a tree have pairwise distinct keys, at every depth. *)
Fixpoint well_formed (t : value) : Prop :=
  match t with
  | VArr items => fold_right (fun i p => well_formed i /\ p) True items
  | VObj fields =>
      NoDup (keys fields) /\
      fold_right (fun f p => well_formed (snd f) /\ p) True fields
  | _ => True
  end.


(** No recognised key anywhere in the tree. *)
Fixpoint no_monetary_key (t : value) : Prop :=
  match t with
  | VArr items => fold_right (fun i p => no_monetary_key i /\ p) True items
  | VObj fields =>
      fold_right (fun f p => includes MONETARY_FIELDS (fst f) = false /\
                             no_monetary_key (snd f) /\ p) True fields
  | _ => True
  end.

(** The Gregorian calendar in the usual words: the length of each month,
    and what makes a year-month-day triple a date. *)
Definition days_in_month (y m : Z) : Z :=
  match m with
  | 1 | 3 | 5 | 7 | 8 | 10 | 12 => 31
  | 4 | 6 | 9 | 11 => 30
  | 2 => if DateModel.leap_year y then 29 else 28
  | _ => 0
  end.

Definition calendar_valid (y m d : Z) : bool :=
  (1 <=? m) && (m <=? 12) && (1 <=? d) && (d <=? days_in_month y m).

(** The string spelled [YYYY-MM-DD] by eight digits, and the date it
    denotes when they are decimal digits of a calendar date. *)
Definition date_string (y1 y2 y3 y4 m1 m2 d1 d2 : ascii) : string :=
  string_of_list_ascii [y1; y2; y3; y4; "-"%char; m1; m2; "-"%char; d1; d2].

Definition is_calendar_date (s : string) : Prop :=
  exists y1 y2 y3 y4 m1 m2 d1 d2,
    forallb is_digit [y1; y2; y3; y4; m1; m2; d1; d2] = true /\
    s = date_string y1 y2 y3 y4 m1 m2 d1 d2 /\
    calendar_valid
      (1000 * digit_val y1 + 100 * digit_val y2 + 10 * digit_val y3 + digit_val y4)
      (10 * digit_val m1 + digit_val m2)
      (10 * digit_val d1 + digit_val d2) = true.

(** Pagination: an offset that is absent or a finite number not below
    zero; a limit that is absent or a finite number above zero and not
    above 100. *)
Definition offset_ok (offset : value) : bool :=
  match offset with
  | VUndefined => true
  | VNum x => isFinite x && negb (x <? 0)%float
  | _ => false
  end.

Definition limit_ok (limit : value) : bool :=
  match limit with
  | VUndefined => true
  | VNum x => isFinite x && negb (x <=? 0)%float && negb (100 <? x)%float
  | _ => false
  end.

(** A line item with a name, a tax symbol and a gross price only. *)
Definition gross_only_item (name : string) (tax_symbol : value) (gross : float)
  : value :=
  VObj [("name", VStr name); ("tax_symbol", tax_symbol);
        ("gross_price", VNum gross)].

(** A line item with a name and a tax symbol but no price at all. *)
Definition priceless_item : value :=
  VObj [("name", VStr "Dev"); ("tax_symbol", VNum 23)].





(** The groups whose handlers send the remote result through the unit
    converter, and the handlers that answer with the remote result at all
    (the delete handlers answer with a confirmation, the PDF download with
    the encoded bytes). *)
Definition converts_money (g : Dispatcher.group) : bool :=
  match g with
  | Dispatcher.Invoices | Dispatcher.Clients | Dispatcher.ReferenceData => true
  | Dispatcher.Products | Dispatcher.Costs => false
  end.

Definition returns_remote_json (t : Dispatcher.tool) : bool :=
  match t with
  | Dispatcher.deleteInvoice | Dispatcher.deleteClient
  | Dispatcher.deleteProduct | Dispatcher.downloadInvoicePdf => false
  | _ => true
  end.

(** The response to a call of tool [t] is the serialised decoded body of
    the one remote call made, sent through the unit converter first for the
    groups that convert. *)
Definition answers_with_remote_json (rt : runtime) (svc : ApiClient.service)
  (t : Dispatcher.tool) (args : value) (response : Handlers.ToolResponse) : Prop :=
  exists req respond body,
    Dispatcher.handler t rt args = Ok (Handlers.CallJson req respond) /\
    ApiClient.json svc req = Ok body /\
    response
    = {| Handlers.content :=
           [JSON_stringify rt
              (if converts_money (Dispatcher.group_of t)
               then convertAllMonetaryFields body else body)] |}.

(** The errors a handler throws before its remote call: validation errors,
    and the plain errors of three checks that are written inline. *)
Definition rejection_of (t : Dispatcher.tool) (e : exn) : Prop :=
  match e with
  | ValidationError _ _ => True
  | Error message =>
      (t = Dispatcher.createInvoice /\
       (message = "services is required" \/
        message = "paid_date is required when status is 'paid'")) \/
      (t = Dispatcher.createProduct /\
       message = "tax_symbol is required and must be a string or number")
  | _ => False
  end.

(** A runtime whose built-ins answer fixed texts, for statements that need
    some runtime and do not depend on which. *)
Definition fixed_runtime : runtime :=
  {| number_to_string := fun _ => "0";
     JSON_stringify := fun _ => Some "{}";
     McpError_message := fun _ message => message;
     URL_parses := fun _ => true;
     Date_rolls_over := true |}.

(** A remote service that answers every call with one invoice line and
    every binary call with three bytes. *)
Definition fixed_service : ApiClient.service :=
  {| ApiClient.json := fun _ => Ok (VObj [("net_price", VNum 12345)]);
     ApiClient.binary := fun _ => Ok (chars "Man") |}.

Definition pdf_arguments : value :=
  VObj [("invoice_uuid", VStr "123e4567-e89b-12d3-a456-426614174000")].

(** The arguments of the specification's "create invoice" scenario, and
    the same without the services array, and with status "paid" but no
    paid date. *)
Definition acme_service : value :=
  VObj [("name", VStr "Dev"); ("unit_net_price", VNum 5000);
        ("tax_symbol", VNum 23)].

Definition acme_invoice : value :=
  VObj [("client_company_name", VStr "ACME"); ("payment_method", VStr "transfer");
        ("services", VArr [acme_service])].

Definition acme_without_services : value :=
  VObj [("client_company_name", VStr "ACME"); ("payment_method", VStr "transfer")].

Definition acme_paid_without_date : value :=
  VObj [("client_company_name", VStr "ACME"); ("payment_method", VStr "transfer");
        ("services", VArr [acme_service]); ("status", VStr "paid")].



(** An environment with a credential, the sandbox flag set and an override
    URL. *)
Definition sandbox_environment : Config.environment :=
  fun name =>
    if String.eqb name "INFAKT_API_KEY" then Some "0123456789abcdef"
    else if String.eqb name "INFAKT_USE_SANDBOX" then Some "true"
    else if String.eqb name "INFAKT_BASE_URL" then Some "https://override.example/api"
    else None.

(* ===================================================================== *)
(** * Invariants used in the proofs *)
(* ===================================================================== *)

(** The field stored for one entry of [Object.entries]. *)
Definition convert_field (f : string * value) : string * value :=
  (fst f,
   if includes MONETARY_FIELDS (fst f)
   then Currency.convert_monetary (snd f)
   else convertAllMonetaryFields (snd f)).




(** [r] returns, or throws an error that satisfies [P]. *)
Definition throws_only {A : Type} (P : exn -> Prop) (r : result A) : Prop :=
  match r with
  | Ok _ => True
  | Throw e => P e
  end.



(* ===================================================================== *)
(** * config.ts: the configuration singleton *)
(* ===================================================================== *)

Module ConfigInstance.

Import Config.

(** The module variable [configInstance] is threaded through: each
    function takes its value before the call and returns its value after
    it. *)
Definition instance := option ServerConfig.

Definition getConfig (rt : runtime) (env : environment) (configInstance : instance)
  : result ServerConfig * instance :=
  match configInstance with
  | Some config => (Ok config, configInstance)
  | None =>
      match loadConfig rt env with
      | Ok config => (Ok config, Some config)
      | Throw e => (Throw e, None)
      end
  end.

Definition resetConfig (configInstance : instance) : instance := None.

Record DisplayConfig := {
  display_baseUrl : string;
  display_useSandbox : bool;
  apiKeyMasked : string
}.

(** [s.substring(start)] for an integer [start]: a negative start counts
    as zero. *)
Definition substring_from (start : Z) (s : string) : string :=
  let n := Z.to_nat start in
  String.substring n (String.length s - n) s.

Definition getDisplayConfig (rt : runtime) (env : environment)
  (configInstance : instance) : result DisplayConfig * instance :=
  match getConfig rt env configInstance with
  | (Ok config, after) =>
      (Ok {| display_baseUrl := baseUrl config;
             display_useSandbox := useSandbox config;
             apiKeyMasked :=
               String.substring 0 4 (apiKey config) ++ "..."
                 ++ substring_from (Z.of_nat (String.length (apiKey config)) - 4)
                      (apiKey config) |},
       after)
  | (Throw e, after) => (Throw e, after)
  end.

End ConfigInstance.

(* ===================================================================== *)
(** * currency.ts: conversion of a given list of fields *)
(* ===================================================================== *)

(** [convertMonetaryFields]: a copy of the object's entries, in which each
    listed field that holds a number or a string is overwritten, one field
    of the list after the other. *)
Definition convertMonetaryFields (obj : list (string * value))
  (fields : list string) : list (string * value) :=
  fold_left
    (fun converted field =>
       match get (VObj converted) field with
       | VNum x => obj_set converted field (VNum (groszeToPLN (ANum x)))
       | VStr s => obj_set converted field (VNum (groszeToPLN (AStr s)))
       | _ => converted
       end)
    fields obj.

(* ===================================================================== *)
(** * validation.ts: the e-mail validator *)
(* ===================================================================== *)

Module Email.

(** The class [[^\s@]]. *)
Definition plain (c : ascii) : bool :=
  negb (is_space c) && negb (Ascii.eqb c "@").

(** [[^\s@]+] followed by [k]: one character of the class, then either
    more of them or the rest of the pattern. *)
Fixpoint plain_plus (k : list ascii -> bool) (l : list ascii) : bool :=
  match l with
  | c :: rest => plain c && (plain_plus k rest || k rest)
  | [] => false
  end.

(** A literal character followed by [k]. *)
Definition literal (a : ascii) (k : list ascii -> bool) (l : list ascii) : bool :=
  match l with
  | c :: rest => Ascii.eqb c a && k rest
  | [] => false
  end.

Definition at_end (l : list ascii) : bool :=
  match l with [] => true | _ => false end.

(** [/^[^\s@]+@[^\s@]+\.[^\s@]+$/.test(s)] *)
Definition emailRegex_test (s : string) : bool :=
  plain_plus (literal "@" (plain_plus (literal "." (plain_plus at_end))))
    (chars s).

Definition validateEmail (value : JS.value) (fieldName : string) : result unit :=
  match value with
  | VStr s =>
      if emailRegex_test s then Ok tt
      else Throw (ValidationError fieldName "is not a valid email address")
  | _ => Throw (ValidationError fieldName "must be a string")
  end.

End Email.

(* ===================================================================== *)
(** * tools.ts and the start-up check of index.ts *)
(* ===================================================================== *)

Module Registry.

Import Dispatcher.

(** [TOOLS], in the order of the source: the name of each tool and the
    [required] list of its input schema (empty when the schema has
    none). *)
Definition TOOLS : list (string * list string) :=
  [ ("infakt_create_invoice", ["client_company_name"; "payment_method"; "services"]);
    ("infakt_check_invoice_status", ["task_reference_number"]);
    ("infakt_list_invoices", []);
    ("infakt_get_invoice", ["invoice_uuid"]);
    ("infakt_update_invoice", ["invoice_uuid"]);
    ("infakt_delete_invoice", ["invoice_uuid"]);
    ("infakt_download_invoice_pdf", ["invoice_uuid"]);
    ("infakt_send_invoice_email", ["invoice_uuid"]);
    ("infakt_mark_invoice_paid", ["invoice_uuid"; "paid_date"]);
    ("infakt_list_clients", []);
    ("infakt_get_client", ["client_id"]);
    ("infakt_create_client", ["company_name"]);
    ("infakt_update_client", ["client_id"]);
    ("infakt_delete_client", ["client_id"]);
    ("infakt_list_products", []);
    ("infakt_get_product", ["product_id"]);
    ("infakt_create_product", ["name"; "unit_net_price"; "tax_symbol"]);
    ("infakt_update_product", ["product_id"]);
    ("infakt_delete_product", ["product_id"]);
    ("infakt_get_vat_rates", []);
    ("infakt_get_bank_accounts", []);
    ("infakt_get_account_info", []);
    ("infakt_list_costs", []);
    ("infakt_get_cost", ["cost_uuid"]) ].

(** The elements of [new Set(names)], in insertion order. *)
Fixpoint set_of (seen names : list string) : list string :=
  match names with
  | [] => []
  | n :: rest =>
      if includes seen n then set_of seen rest else n :: set_of (n :: seen) rest
  end.

(** The tools that [validateToolHandlers] finds without a handler, and the
    handlers it finds without a tool (for which it only prints a
    warning). *)
Definition missingHandlers : list string :=
  let toolNames := set_of [] (map fst TOOLS) in
  let handlerNames := set_of [] (map fst TOOL_HANDLERS) in
  filter (fun name => negb (includes handlerNames name)) toolNames.

Definition extraHandlers : list string :=
  let toolNames := set_of [] (map fst TOOLS) in
  let handlerNames := set_of [] (map fst TOOL_HANDLERS) in
  filter (fun name => negb (includes toolNames name)) handlerNames.

Definition validateToolHandlers : result unit :=
  match missingHandlers with
  | [] => Ok tt
  | _ => Throw (Error ("Missing handlers for tools: " ++ join ", " missingHandlers))
  end.

End Registry.

(* ===================================================================== *)
(** * Notions used in the statements about the rest of the code *)
(* ===================================================================== *)

(** The request of the one remote call a handler makes. *)
Definition request_of (c : Handlers.call) : ApiClient.request :=
  match c with
  | Handlers.CallJson req _ => req
  | Handlers.CallBinary req _ => req
  end.

(** A value is a scalar: not an array and not an object. *)
Definition scalar (v : value) : bool :=
  match v with
  | VArr _ | VObj _ => false
  | _ => true
  end.

(** The canonical text of a universally unique identifier: groups of 8, 4,
    4, 4 and 12 hexadecimal digits of either case, joined by dashes. *)
Definition is_uuid (s : string) : Prop :=
  exists g1 g2 g3 g4 g5,
    List.length g1 = 8%nat /\ List.length g2 = 4%nat /\ List.length g3 = 4%nat /\
    List.length g4 = 4%nat /\ List.length g5 = 12%nat /\
    forallb Validation.is_hex (g1 ++ g2 ++ g3 ++ g4 ++ g5) = true /\
    chars s = g1 ++ "-"%char :: g2 ++ "-"%char :: g3 ++ "-"%char :: g4
                 ++ "-"%char :: g5.

(** An address of the shape local@domain.tld: three non-empty runs of
    characters that are neither white space nor ["@"], the first two
    separated by ["@"], the last two by a dot. *)
Definition is_email (s : string) : Prop :=
  exists local domain tld,
    local <> [] /\ domain <> [] /\ tld <> [] /\
    forallb Email.plain (local ++ domain ++ tld) = true /\
    chars s = local ++ "@"%char :: domain ++ "."%char :: tld.

(** A finite Number above zero. *)
Definition positive_number (x : float) : Prop :=
  exists m e, Prim2SF x = S754_finite false m e.

(** A finite Number that is not below zero: a zero of either sign, or a
    finite Number above zero. *)
Definition non_negative_number (x : float) : Prop :=
  (exists s, Prim2SF x = S754_zero s) \/ positive_number x.

(** A price or a quantity of a line item: absent, or a Number that
    satisfies [ok]. *)
Definition absent_or (ok : float -> Prop) (v : value) : Prop :=
  v = VUndefined \/ exists x, v = VNum x /\ ok x.

(** What [validateInvoiceService] asks of a line item: an object with a
    name that is not blank, a tax symbol that is a string or a number,
    prices that are absent or not negative, at least one of them present,
    and a quantity that is absent or positive. *)
Definition service_ok (service : value) : Prop :=
  (exists fields, service = VObj fields) /\
  (exists name, get service "name" = VStr name /\
                String.length (trim name) <> 0%nat) /\
  is_string (get service "tax_symbol") || is_number (get service "tax_symbol")
    = true /\
  absent_or non_negative_number (get service "net_price") /\
  absent_or non_negative_number (get service "unit_net_price") /\
  absent_or non_negative_number (get service "gross_price") /\
  absent_or positive_number (get service "quantity") /\
  (get service "net_price" <> VUndefined \/
   get service "unit_net_price" <> VUndefined \/
   get service "gross_price" <> VUndefined).

(** The error that the loop of [validateArray] throws for an error [e] of
    the item validator at position [index]: a [ValidationError] gets the
    array's name and the position put before its field, and loses the
    prefix that names the field in its message; any other error is thrown
    as it is. *)
Definition rethrown (rt : runtime) (fieldName : string) (index : N) (e : exn) : exn :=
  match e with
  | ValidationError field message =>
      ValidationError (fieldName ++ "[" ++ decimal index ++ "]." ++ field)
        (remove_first (validation_text field "") (exn_message rt e))
  | _ => e
  end.

(** The base URL that [loadConfig] selects from the environment. *)
Definition selected_base_url (env : Config.environment) : string :=
  if Config.parseBooleanEnvVar env "INFAKT_USE_SANDBOX" false
  then Config.SANDBOX
  else match env "INFAKT_BASE_URL" with
       | Some url => url
       | None => Config.PRODUCTION
       end.

(** The handlers that address one document by its identifier: the argument
    that holds the identifier and the two parts of the path around it. *)
Definition uuid_route (t : Dispatcher.tool) : option (string * string * string) :=
  match t with
  | Dispatcher.getInvoice | Dispatcher.updateInvoice | Dispatcher.deleteInvoice =>
      Some ("invoice_uuid", "/invoices/", ".json")
  | Dispatcher.downloadInvoicePdf => Some ("invoice_uuid", "/invoices/", "/pdf.json")
  | Dispatcher.sendInvoiceEmail =>
      Some ("invoice_uuid", "/invoices/", "/deliver_via_email.json")
  | Dispatcher.markInvoicePaid => Some ("invoice_uuid", "/async/invoices/", "/paid.json")
  | Dispatcher.getCost => Some ("cost_uuid", "/documents/costs/", ".json")
  | _ => None
  end.

(** The update handlers: the argument that holds the identifier and the
    key under which the other arguments are sent. *)
Definition update_route (t : Dispatcher.tool) : option (string * string) :=
  match t with
  | Dispatcher.updateInvoice => Some ("invoice_uuid", "invoice")
  | Dispatcher.updateClient => Some ("client_id", "client")
  | Dispatcher.updateProduct => Some ("product_id", "product")
  | _ => None
  end.

(** The handlers that list a collection page by page. *)
Definition list_tool (t : Dispatcher.tool) : bool :=
  match t with
  | Dispatcher.listInvoices | Dispatcher.listClients
  | Dispatcher.listProducts | Dispatcher.listCosts => true
  | _ => false
  end.

(** The handlers that only read: they list, get, check or download. *)
Definition reads_only (t : Dispatcher.tool) : bool :=
  match t with
  | Dispatcher.checkInvoiceStatus | Dispatcher.listInvoices
  | Dispatcher.getInvoice | Dispatcher.downloadInvoicePdf
  | Dispatcher.listClients | Dispatcher.getClient
  | Dispatcher.listProducts | Dispatcher.getProduct
  | Dispatcher.getVatRates | Dispatcher.getBankAccounts
  | Dispatcher.getAccountInfo
  | Dispatcher.listCosts | Dispatcher.getCost => true
  | _ => false
  end.

(** A value that is neither [undefined] nor [null]. *)
Definition defined (v : value) : bool :=
  match v with
  | VUndefined | VNull => false
  | _ => true
  end.

(** A property write [o[key] = v] adds or replaces an entry of [o] for
    every key but ["__proto__"], which it hands to the setter of the
    prototype instead. Statements about objects that are built by such
    writes from the keys of a given document are made for documents
    without that key. *)
Fixpoint plain_keys (t : value) : Prop :=
  match t with
  | VArr items => fold_right (fun i p => plain_keys i /\ p) True items
  | VObj fields =>
      fold_right (fun f p => fst f <> "__proto__" /\ plain_keys (snd f) /\ p)
        True fields
  | _ => True
  end.

(** The integer that a sequence of decimal digits denotes when it is read
    after the digits of [acc]. *)
Fixpoint uint_value (d : Decimal.uint) (acc : Z) : Z :=
  match d with
  | Decimal.Nil => acc
  | Decimal.D0 l => uint_value l (10 * acc)
  | Decimal.D1 l => uint_value l (10 * acc + 1)
  | Decimal.D2 l => uint_value l (10 * acc + 2)
  | Decimal.D3 l => uint_value l (10 * acc + 3)
  | Decimal.D4 l => uint_value l (10 * acc + 4)
  | Decimal.D5 l => uint_value l (10 * acc + 5)
  | Decimal.D6 l => uint_value l (10 * acc + 6)
  | Decimal.D7 l => uint_value l (10 * acc + 7)
  | Decimal.D8 l => uint_value l (10 * acc + 8)
  | Decimal.D9 l => uint_value l (10 * acc + 9)
  end.



Section UnitConverter.

(* ===================================================================== *)
(** * Properties of the unit converter *)
(* ===================================================================== *)

Section ValueInduction.

Variable P : value -> Prop.
Hypothesis H_undefined : P VUndefined.
Hypothesis H_null : P VNull.
Hypothesis H_bool : forall b, P (VBool b).
Hypothesis H_num : forall x, P (VNum x).
Hypothesis H_str : forall s, P (VStr s).
Hypothesis H_arr : forall items, Forall P items -> P (VArr items).
Hypothesis H_obj :
  forall fields, Forall (fun f => P (snd f)) fields -> P (VObj fields).

(** Induction on trees, with the hypothesis available for every element of
    an array and every field of an object. *)
Fixpoint value_induction (t : value) : P t :=
  match t with
  | VUndefined => H_undefined
  | VNull => H_null
  | VBool b => H_bool b
  | VNum x => H_num x
  | VStr s => H_str s
  | VArr items =>
      H_arr items
        ((fix all (l : list value) : Forall P l :=
            match l with
            | [] => Forall_nil P
            | i :: rest => Forall_cons i (value_induction i) (all rest)
            end) items)
  | VObj fields =>
      H_obj fields
        ((fix all (l : list (string * value)) : Forall (fun f => P (snd f)) l :=
            match l with
            | [] => Forall_nil _
            | f :: rest => Forall_cons f (value_induction (snd f)) (all rest)
            end) fields)
  end.

End ValueInduction.

Lemma obj_set_fresh {A : Type} (fields : list (string * A)) k v :
  ~ In k (keys fields) -> obj_set fields k v = fields ++ [(k, v)].
Proof.
  induction fields as [|[k' v'] rest IH]; simpl; intros Hk; [reflexivity|].
  destruct (String.eqb_spec k k') as [->|Hne].
  - exfalso. apply Hk. now left.
  - rewrite IH; [reflexivity|]. intros Hin. apply Hk. now right.
Qed.

Lemma keys_app {A : Type} (l1 l2 : list (string * A)) :
  keys (l1 ++ l2) = keys l1 ++ keys l2.
Proof. unfold keys. apply map_app. Qed.

Lemma convert_loop (obj acc : list (string * value)) :
  NoDup (keys acc ++ keys obj) ->
  fold_left
    (fun converted (entry : string * value) =>
       let (key, value) := entry in
       if includes MONETARY_FIELDS key
       then obj_set converted key (Currency.convert_monetary value)
       else obj_set converted key (convertAllMonetaryFields value))
    obj acc
  = acc ++ map convert_field obj.
Proof.
  revert acc. induction obj as [|[k v] rest IH]; intros acc Hnd.
  - cbn [fold_left map]. now rewrite app_nil_r.
  - cbn [keys map fst] in Hnd.
    assert (Hfresh : ~ In k (keys acc)).
    { intros Hin. apply NoDup_remove_2 in Hnd. apply Hnd.
      apply in_or_app. now left. }
    assert (Hstep : forall w, NoDup (keys (acc ++ [(k, w)]) ++ keys rest)).
    { intros w. rewrite keys_app. cbn [keys map fst]. rewrite <- app_assoc.
      exact Hnd. }
    cbn [fold_left map]. unfold convert_field at 1. cbn [fst snd].
    destruct (includes MONETARY_FIELDS k);
      rewrite obj_set_fresh by assumption; rewrite IH by apply Hstep;
      rewrite <- app_assoc; reflexivity.
Qed.

Lemma convert_object (obj : list (string * value)) :
  NoDup (keys obj) ->
  convertAllMonetaryFields (VObj obj) = VObj (map convert_field obj).
Proof.
  intros Hnd. cbn [convertAllMonetaryFields].
  rewrite convert_loop; [reflexivity|exact Hnd].
Qed.

Lemma well_formed_arr items :
  well_formed (VArr items) <-> Forall well_formed items.
Proof.
  cbn [well_formed]. induction items as [|i rest IH]; cbn [fold_right].
  - split; constructor.
  - rewrite IH. split.
    + intros [H1 H2]. now constructor.
    + intros H. inversion H; subst. now split.
Qed.

Lemma well_formed_obj fields :
  well_formed (VObj fields) <->
  NoDup (keys fields) /\ Forall (fun f => well_formed (snd f)) fields.
Proof.
  cbn [well_formed].
  assert (H : fold_right (fun (f : string * value) p => well_formed (snd f) /\ p)
                True fields
              <-> Forall (fun f => well_formed (snd f)) fields).
  { induction fields as [|f rest IH]; cbn [fold_right].
    - split; constructor.
    - rewrite IH. split.
      + intros [H1 H2]. now constructor.
      + intros H. inversion H; subst. now split. }
  now rewrite H.
Qed.

Lemma keys_convert_fields fields : keys (map convert_field fields) = keys fields.
Proof.
  unfold keys. rewrite map_map. apply map_ext. reflexivity.
Qed.


(** A tree without recognised keys is returned as an equal tree. *)
Lemma convert_no_monetary_key (t : value) :
  well_formed t -> no_monetary_key t -> convertAllMonetaryFields t = t.
Proof.
  induction t as [| | | | |items IH|fields IH] using value_induction;
    intros Hwf Hno; try reflexivity.
  - apply well_formed_arr in Hwf. cbn [convertAllMonetaryFields]. f_equal.
    cbn [no_monetary_key] in Hno.
    induction items as [|i rest IHl]; [reflexivity|].
    cbn [map fold_right] in *. inversion IH; inversion Hwf; subst.
    destruct Hno as [Hi Hrest]. f_equal; auto.
  - apply well_formed_obj in Hwf. destruct Hwf as [Hnd Hwf].
    rewrite convert_object by assumption. f_equal.
    cbn [no_monetary_key] in Hno. clear Hnd.
    induction fields as [|[k v] rest IHl]; [reflexivity|].
    cbn [map fold_right fst snd] in *. inversion IH; inversion Hwf; subst.
    destruct Hno as [Hk [Hv Hrest]]. f_equal; auto.
    unfold convert_field. cbn [fst snd] in *. rewrite Hk. f_equal. auto.
Qed.

(** ** The store *)

Import Heap.












Section Loops.

Variable fuel : nat.
Variable h : heap.
Variable n0 : nat.
Hypothesis n0_le : (n0 <= List.length h)%nat.

Let a := List.length h.
Let P := fun l : loc => (l < n0)%nat.








End Loops.









End UnitConverter.

Section InputValidator.

(* ===================================================================== *)
(** * Properties of the input validator *)
(* ===================================================================== *)

Import DateModel Validation.

Lemma DayFromYear_succ y :
  DayFromYear (y + 1) = DayFromYear y + (if leap_year y then 366 else 365).
Proof.
  unfold DayFromYear, leap_year.
  destruct (Z.eqb_spec (y mod 4) 0); destruct (Z.eqb_spec (y mod 100) 0);
    destruct (Z.eqb_spec (y mod 400) 0); cbn [andb orb negb];
    Z.div_mod_to_equations; lia.
Qed.

Lemma DayFromYear_mono y y' : y <= y' -> DayFromYear y <= DayFromYear y'.
Proof. unfold DayFromYear. intros. Z.div_mod_to_equations. lia. Qed.

Lemma year_search_correct fuel :
  forall y0 day y,
    DayFromYear y <= day < DayFromYear (y + 1) ->
    y <= y0 -> y0 - y <= Z.of_nat fuel ->
    year_search fuel y0 day = y.
Proof.
  induction fuel as [|fuel IH]; intros y0 day y Hday Hle Hfuel.
  - cbn [year_search]. lia.
  - cbn [year_search]. destruct (Z.leb_spec (DayFromYear y0) day) as [Hy0|Hy0].
    + destruct (Z.eq_dec y0 y) as [|Hne]; [assumption|].
      pose proof (DayFromYear_mono (y + 1) y0). lia.
    + apply IH; try lia.
      destruct (Z.eq_dec y0 y) as [->|Hne]; lia.
Qed.

Lemma YearFromTime_day y day :
  DayFromYear y <= day < DayFromYear (y + 1) ->
  YearFromTime (msPerDay * day) = y.
Proof.
  intros Hday. unfold YearFromTime, Day.
  replace (msPerDay * day / msPerDay) with day
    by (unfold msPerDay; rewrite Z.mul_comm, Z.div_mul; lia).
  rewrite DayFromYear_succ in Hday.
  assert (Hyear : 365 <= (if leap_year y then 366 else 365) <= 366)
    by (destruct (leap_year y); lia).
  unfold DayFromYear in Hday.
  apply year_search_correct.
  - rewrite DayFromYear_succ. unfold DayFromYear. lia.
  - destruct (Z.leb_spec 0 day); Z.div_mod_to_equations; lia.
  - rewrite Z2Nat.id by (Z.div_mod_to_equations; lia).
    destruct (Z.leb_spec 0 day); Z.div_mod_to_equations; lia.
Qed.

Ltac month_cases m :=
  let H := fresh "Hm" in
  assert (H : m = 1 \/ m = 2 \/ m = 3 \/ m = 4 \/ m = 5 \/ m = 6 \/
              m = 7 \/ m = 8 \/ m = 9 \/ m = 10 \/ m = 11 \/ m = 12) by lia;
  repeat (destruct H as [H|H]; [subst m|]); [..|subst m].

Ltac split_ltb :=
  repeat match goal with
         | |- context [?a <? ?b] => destruct (Z.ltb_spec a b); try lia
         end.

Ltac eval_month_start :=
  repeat match goal with
         | |- context [month_start ?b ?k] =>
             let v := eval vm_compute in (month_start b k) in
             change (month_start b k) with v
         | H : context [month_start ?b ?k] |- _ =>
             let v := eval vm_compute in (month_start b k) in
             change (month_start b k) with v in H
         end.

Ltac eval_numerals :=
  repeat match goal with
         | |- context [Z.add (Zpos ?a) (Zpos ?b)] =>
             let v := eval vm_compute in (Z.add (Zpos a) (Zpos b)) in
             change (Z.add (Zpos a) (Zpos b)) with v
         | |- context [Z.sub (Zpos ?a) (Zpos ?b)] =>
             let v := eval vm_compute in (Z.sub (Zpos a) (Zpos b)) in
             change (Z.sub (Zpos a) (Zpos b)) with v
         end.

Lemma DaysInMonth_table y m :
  1 <= m <= 12 -> DaysInMonth y m = days_in_month y m.
Proof.
  intros Hm. unfold DaysInMonth, days_in_month.
  month_cases m; destruct (leap_year y); reflexivity.
Qed.

Lemma month_of_start l m d :
  1 <= m <= 12 -> 1 <= d <= month_start l m - month_start l (m - 1) ->
  month_of l (month_start l (m - 1) + d - 1) + 1 = m /\
  month_start l (m - 1) + d - 1
  - month_start l (month_of l (month_start l (m - 1) + d - 1)) + 1 = d.
Proof.
  intros Hm Hd.
  assert (Hmo : month_of l (month_start l (m - 1) + d - 1) = m - 1).
  { month_cases m; destruct l; unfold month_of; eval_month_start;
      split_ltb; lia. }
  rewrite Hmo. lia.
Qed.

(** A calendar date survives the trip through the time value. *)
Lemma roundtrip_valid y m d :
  1 <= m <= 12 -> 1 <= d <= days_in_month y m ->
  YearFromTime (msPerDay * MakeDay y (m - 1) d) = y /\
  MonthFromTime (msPerDay * MakeDay y (m - 1) d) + 1 = m /\
  DateFromTime (msPerDay * MakeDay y (m - 1) d) = d.
Proof.
  intros Hm Hd. rewrite <- DaysInMonth_table in Hd by exact Hm.
  unfold DaysInMonth in Hd.
  assert (Hstart : 0 <= month_start (leap_year y) (m - 1) /\
                   month_start (leap_year y) m
                   <= if leap_year y then 366 else 365).
  { clear Hd. month_cases m; destruct (leap_year y); eval_month_start; lia. }
  assert (Hy : YearFromTime (msPerDay * MakeDay y (m - 1) d) = y).
  { apply YearFromTime_day. rewrite DayFromYear_succ. unfold MakeDay. lia. }
  split; [exact Hy|].
  unfold DateFromTime, MonthFromTime, InLeapYear, DayWithinYear. rewrite Hy.
  unfold Day.
  replace (msPerDay * MakeDay y (m - 1) d / msPerDay) with (MakeDay y (m - 1) d)
    by (unfold msPerDay; rewrite Z.mul_comm, Z.div_mul; lia).
  unfold MakeDay.
  replace (DayFromYear y + month_start (leap_year y) (m - 1) + d - 1
           - DayFromYear y)
    with (month_start (leap_year y) (m - 1) + d - 1) by lia.
  now apply month_of_start.
Qed.

(** A day beyond the end of its month, when the parser lets it roll over,
    lands in the next month. *)
Lemma rollover_next_month y m d :
  1 <= m <= 12 -> days_in_month y m < d <= 31 ->
  MonthFromTime (msPerDay * MakeDay y (m - 1) d) + 1 = m + 1.
Proof.
  intros Hm Hd.
  assert (Hfacts : 1 <= m + 1 <= 12 /\
                   1 <= d - days_in_month y m <= days_in_month y (m + 1) /\
                   MakeDay y (m - 1) d
                   = MakeDay y (m + 1 - 1) (d - days_in_month y m)).
  { unfold MakeDay. generalize dependent (DayFromYear y). intros base.
    month_cases m; eval_numerals; unfold days_in_month in *;
      destruct (leap_year y); eval_month_start; cbv beta iota in *; lia. }
  destruct Hfacts as (Hm' & Hd' & Hroll).
  rewrite Hroll. now apply roundtrip_valid.
Qed.

Lemma days_in_month_le_31 y m : 1 <= m <= 12 -> days_in_month y m <= 31.
Proof.
  intros Hm. unfold days_in_month.
  month_cases m; destruct (leap_year y); cbv beta iota; lia.
Qed.

(** What [validateDateString] decides, in terms of the fields it reads. *)
Lemma validateDateString_fields rt s field :
  validateDateString rt (VStr s) field = Ok tt <->
  dateRegex_test s = true /\
  (let '(y, m, d) := date_fields s in calendar_valid y m d = true).
Proof.
  unfold validateDateString. destruct (dateRegex_test s); cbn [negb];
    [|split; [discriminate|intros [H _]; discriminate]].
  destruct (date_fields s) as [[y m] d].
  unfold parse_date_only, calendar_valid.
  destruct (Z.leb_spec 1 m) as [Hm1|Hm1]; cbn [andb];
    [|split; [discriminate|intros [_ H]; discriminate]].
  destruct (Z.leb_spec m 12) as [Hm2|Hm2]; cbn [andb];
    [|split; [discriminate|intros [_ H]; discriminate]].
  destruct (Z.leb_spec 1 d) as [Hd1|Hd1]; cbn [andb];
    [|split; [discriminate|intros [_ H]; discriminate]].
  rewrite DaysInMonth_table by lia.
  destruct (Z.leb_spec d (days_in_month y m)) as [Hd2|Hd2].
  - (* a calendar date: parsed by every runtime, and it round-trips *)
    assert (Hparse : (d <=? (if Date_rolls_over rt then 31
                             else days_in_month y m)) = true).
    { apply Z.leb_le. destruct (Date_rolls_over rt); [|exact Hd2].
      pose proof (days_in_month_le_31 y m). lia. }
    rewrite Hparse.
    destruct (roundtrip_valid y m d) as (Hy & Hmo & Hda); [lia|lia|].
    rewrite Hy, Hmo, Hda, !Z.eqb_refl. cbn. split; auto.
  - (* not a calendar date: invalid, or rolled over and caught *)
    split; [|intros [_ H]; discriminate].
    destruct (Date_rolls_over rt).
    + destruct (Z.leb_spec d 31) as [Hd3|Hd3]; [|discriminate].
      rewrite rollover_next_month by lia.
      replace (m + 1 =? m) with false by (symmetry; apply Z.eqb_neq; lia).
      cbn [negb orb]. rewrite orb_true_r. discriminate.
    + replace (d <=? days_in_month y m) with false
        by (symmetry; apply Z.leb_gt; lia).
      discriminate.
Qed.

Lemma is_digit_not_dash c : is_digit c = true -> Ascii.eqb c "-" = false.
Proof.
  intros Hc. destruct (Ascii.eqb_spec c "-") as [->|]; [|reflexivity].
  discriminate Hc.
Qed.

Lemma date_string_fields y1 y2 y3 y4 m1 m2 d1 d2 :
  forallb is_digit [y1; y2; y3; y4; m1; m2; d1; d2] = true ->
  dateRegex_test (date_string y1 y2 y3 y4 m1 m2 d1 d2) = true /\
  date_fields (date_string y1 y2 y3 y4 m1 m2 d1 d2)
  = (1000 * digit_val y1 + 100 * digit_val y2 + 10 * digit_val y3 + digit_val y4,
     10 * digit_val m1 + digit_val m2,
     10 * digit_val d1 + digit_val d2).
Proof.
  cbn [forallb]. rewrite !andb_true_iff.
  intros (H1 & H2 & H3 & H4 & H5 & H6 & H7 & H8 & _).
  unfold dateRegex_test, date_fields, date_string, chars.
  rewrite list_ascii_of_string_of_list_ascii. split.
  - now rewrite H1, H2, H3, H4, H5, H6, H7, H8.
  - cbn [split_dash].
    rewrite (is_digit_not_dash _ H1), (is_digit_not_dash _ H2),
      (is_digit_not_dash _ H3), (is_digit_not_dash _ H4),
      (is_digit_not_dash _ H5), (is_digit_not_dash _ H6),
      (is_digit_not_dash _ H7), (is_digit_not_dash _ H8).
    cbn [Ascii.eqb Bool.eqb andb map]. unfold digits_val. cbn [fold_left].
    apply pair_equal_spec; split; [apply pair_equal_spec; split|]; lia.
Qed.

Lemma dateRegex_shape s :
  dateRegex_test s = true ->
  exists y1 y2 y3 y4 m1 m2 d1 d2,
    forallb is_digit [y1; y2; y3; y4; m1; m2; d1; d2] = true /\
    s = date_string y1 y2 y3 y4 m1 m2 d1 d2.
Proof.
  unfold dateRegex_test. intros Ht.
  assert (Hs : s = string_of_list_ascii (chars s))
    by (unfold chars; now rewrite string_of_list_ascii_of_string).
  destruct (chars s) as [|y1 [|y2 [|y3 [|y4 [|h1 [|m1 [|m2 [|h2 [|d1 [|d2 [|]]]]]]]]]]];
    try discriminate Ht.
  rewrite !andb_true_iff in Ht.
  destruct Ht as (((((((((H1 & H2) & H3) & H4) & Hh1) & H5) & H6) & Hh2) & H7) & H8).
  apply Ascii.eqb_eq in Hh1, Hh2. subst h1 h2.
  exists y1, y2, y3, y4, m1, m2, d1, d2. split; [|exact Hs].
  cbn [forallb]. now rewrite H1, H2, H3, H4, H5, H6, H7, H8.
Qed.

(** C7. [validateDateString] accepts a value exactly when it is a string
    of the shape YYYY-MM-DD (four digits, two digits, two digits) whose
    year, month and day form a date of the calendar, whichever way the
    runtime's parser treats a day beyond the end of a month: the fields are
    checked against the components of the parsed date. In particular
    "2024-02-30" and "2024-13-01" are rejected and the leap day
    "2024-02-29" is accepted. *)
Theorem validateDateString_calendar (rt : runtime) (field : string) :
  (forall value,
      validateDateString rt value field = Ok tt <->
      exists s, value = VStr s /\ is_calendar_date s) /\
  validateDateString rt (VStr "2024-02-30") field
    = Throw (ValidationError field "is not a valid date") /\
  validateDateString rt (VStr "2024-13-01") field
    = Throw (ValidationError field "is not a valid date") /\
  validateDateString rt (VStr "2024-02-29") field = Ok tt.
Proof.
  split.
  - intros value. split.
    + intros Hok. destruct value; try discriminate Hok.
      exists s. split; [reflexivity|].
      apply validateDateString_fields in Hok. destruct Hok as [Hre Hcal].
      destruct (dateRegex_shape s Hre)
        as (y1 & y2 & y3 & y4 & m1 & m2 & d1 & d2 & Hdig & ->).
      exists y1, y2, y3, y4, m1, m2, d1, d2.
      destruct (date_string_fields _ _ _ _ _ _ _ _ Hdig) as [_ Hf].
      rewrite Hf in Hcal. auto.
    + intros (s & -> & y1 & y2 & y3 & y4 & m1 & m2 & d1 & d2 & Hdig & -> & Hcal).
      apply validateDateString_fields.
      destruct (date_string_fields _ _ _ _ _ _ _ _ Hdig) as [Hre Hf].
      rewrite Hf. auto.
  - unfold validateDateString, parse_date_only.
    change (dateRegex_test "2024-02-30") with true.
    change (dateRegex_test "2024-13-01") with true.
    change (dateRegex_test "2024-02-29") with true.
    change (date_fields "2024-02-30") with (2024, 2, 30).
    change (date_fields "2024-13-01") with (2024, 13, 1).
    change (date_fields "2024-02-29") with (2024, 2, 29).
    cbv beta iota.
    destruct (Date_rolls_over rt); repeat split; vm_compute; reflexivity.
Qed.

(** C8. [validatePaginationParams] passes exactly when the offset is absent
    or a finite number that is not negative and the limit is absent or a
    finite number that is positive and at most 100. A missing limit passes,
    a limit of 100 passes, a limit of 101 is rejected with a validation
    error (nothing is clamped), a limit of 0 is rejected as not positive,
    and every negative offset is rejected. *)
Theorem validatePaginationParams_bounds :
  (forall params,
      validatePaginationParams params = Ok tt <->
      offset_ok (get params "offset") = true /\
      limit_ok (get params "limit") = true) /\
  validatePaginationParams (VObj []) = Ok tt /\
  validatePaginationParams (VObj [("limit", VNum 100)]) = Ok tt /\
  validatePaginationParams (VObj [("limit", VNum 101)])
    = Throw (ValidationError "limit" "must not exceed 100") /\
  validatePaginationParams (VObj [("limit", VNum 0)])
    = Throw (ValidationError "limit" "must be a positive number") /\
  validatePaginationParams (VObj [("offset", VNum (-1)); ("limit", VNum 10)])
    = Throw (ValidationError "offset" "must be a non-negative number") /\
  (forall params x,
      get params "offset" = VNum x -> (x <? 0)%float = true ->
      validatePaginationParams params
      = Throw (ValidationError "offset" "must be a non-negative number")).
Proof.
  split; [|repeat split; try reflexivity].
  - intros params. unfold validatePaginationParams, offset_ok, limit_ok.
    destruct (get params "offset") as [| | |x| | |];
      cbn [is_undefined negb when validateNonNegativeNumber bind];
      try (split; [discriminate|intros [H _]; discriminate]).
    + destruct (get params "limit") as [| | |y| | |];
        cbn [is_undefined negb when validatePositiveNumber bind];
        try (split; [discriminate|intros [_ H]; discriminate]).
      * split; auto.
      * destruct (y <=? 0)%float, (isFinite y), (100 <? y)%float; cbn;
          split; try discriminate; intuition discriminate.
    + destruct (x <? 0)%float, (isFinite x); cbn;
        try (split; [discriminate|intros [H _]; discriminate]).
      destruct (get params "limit") as [| | |y| | |];
        cbn [is_undefined negb when validatePositiveNumber bind];
        try (split; [discriminate|intros [_ H]; discriminate]).
      * split; auto.
      * destruct (y <=? 0)%float, (isFinite y), (100 <? y)%float; cbn;
          split; try discriminate; intuition discriminate.
  - intros params x Hoff Hneg. unfold validatePaginationParams.
    rewrite Hoff. cbn [is_undefined negb when validateNonNegativeNumber].
    rewrite Hneg. reflexivity.
Qed.

(** The path that [validateArray] reports when the item at position
    [length good] is the first one that its validator rejects. *)
Lemma validate_items_first_failure rt fieldName validator good item rest
      field message index :
  Forall (fun it => forall i, validator it i = Ok tt) good ->
  (forall i, validator item i = Throw (ValidationError field message)) ->
  validate_items rt fieldName validator (good ++ item :: rest) index
  = Throw (ValidationError
             (fieldName ++ "[" ++ decimal (index + N.of_nat (List.length good))
                ++ "]." ++ field)
             (remove_first (validation_text field "")
                (exn_message rt (ValidationError field message)))).
Proof.
  intros Hgood Hitem. revert index.
  induction Hgood as [|g good Hg _ IH]; intros index.
  - cbn [app validate_items List.length]. rewrite Hitem.
    now rewrite N.add_0_r.
  - cbn [app validate_items List.length]. rewrite Hg, IH.
    replace (index + 1 + N.of_nat (List.length good))%N
      with (index + N.of_nat (S (List.length good)))%N by lia.
    reflexivity.
Qed.

(** C6. [validateInvoiceService] accepts a line item that has a non-empty
    name, a tax symbol that is a string or a number and a non-negative
    gross price as its only price, and rejects a line item without any
    price, naming the field "services". Reached through
    [validateArray(..., "services", validateInvoiceService)], however, the
    rejection of the item at position [i] is reported for the field
    "services[i].services": the name of the array is put behind the
    position of the item, so the error names neither the array field itself
    nor a field that an item has. *)
Theorem validateInvoiceService_price_rule (rt : runtime) :
  (forall name tax_symbol gross index,
      (String.length (trim name) =? 0)%nat = false ->
      is_string tax_symbol || is_number tax_symbol = true ->
      (gross <? 0)%float = false -> isFinite gross = true ->
      validateInvoiceService (gross_only_item name tax_symbol gross) index
      = Ok tt) /\
  (forall index,
      validateInvoiceService priceless_item index
      = Throw (ValidationError "services"
                 "each service must have at least one of: net_price, unit_net_price, or gross_price")) /\
  (forall good rest,
      Forall (fun it => forall i, validateInvoiceService it i = Ok tt) good ->
      exists message,
        validateArray rt (VArr (good ++ priceless_item :: rest)) "services"
          (Some validateInvoiceService)
        = Throw (ValidationError
                   ("services[" ++ decimal (N.of_nat (List.length good))
                      ++ "].services") message)) /\
  (exists message,
      validateArray rt (VArr [priceless_item]) "services"
        (Some validateInvoiceService)
      = Throw (ValidationError "services[0].services" message)) /\
  validateInvoiceService (gross_only_item "Consulting" (VStr "23") 12300) 0
  = Ok tt /\
  validateArray rt (VArr [gross_only_item "Consulting" (VNum 23) 12300])
    "services" (Some validateInvoiceService)
  = Ok tt.
Proof.
  assert (Hpriceless : forall index,
             validateInvoiceService priceless_item index
             = Throw (ValidationError "services"
                        "each service must have at least one of: net_price, unit_net_price, or gross_price"))
    by (intros index; reflexivity).
  assert (Harr : forall good rest,
      Forall (fun it => forall i, validateInvoiceService it i = Ok tt) good ->
      exists message,
        validateArray rt (VArr (good ++ priceless_item :: rest)) "services"
          (Some validateInvoiceService)
        = Throw (ValidationError
                   ("services[" ++ decimal (N.of_nat (List.length good))
                      ++ "].services") message)).
  { intros good rest Hgood. eexists. unfold validateArray.
    destruct (good ++ priceless_item :: rest) eqn:Happ.
    - destruct good; discriminate Happ.
    - rewrite <- Happ.
      rewrite (validate_items_first_failure rt "services"
                 validateInvoiceService good priceless_item rest
                 "services" _ 0%N Hgood Hpriceless).
      rewrite N.add_0_l. reflexivity. }
  split; [|split; [|split; [|split; [|split]]]].
  - intros name tax_symbol gross index Hname Htax Hgross Hfin.
    unfold validateInvoiceService, gross_only_item.
    cbn [truthy typeof negb orb get lookup String.eqb Ascii.eqb Bool.eqb
         validateRequiredString].
    change (lookup "name" ?l) with (Some (VStr name)).
    cbn. rewrite Hname. cbn.
    destruct tax_symbol; try discriminate Htax; cbn;
      rewrite Hgross, Hfin; reflexivity.
  - exact Hpriceless.
  - exact Harr.
  - destruct (Harr [] [] (Forall_nil _)) as [message Hm].
    exists message. exact Hm.
  - reflexivity.
  - reflexivity.
Qed.

End InputValidator.

Section ErrorsAndConfiguration.

(* ===================================================================== *)
(** * Properties of error translation and configuration *)
(* ===================================================================== *)

Import Validation ApiClient Handlers Dispatcher.



(** C10. Whenever [loadConfig] returns a configuration, its sandbox flag
    is what INFAKT_USE_SANDBOX parses to, and its base URL is the fixed
    sandbox endpoint when that flag is true, whether or not
    INFAKT_BASE_URL is set; otherwise it is INFAKT_BASE_URL when that is
    set and the fixed production endpoint when it is not. *)
Theorem loadConfig_base_url (rt : runtime) (env : Config.environment)
        (config : Config.ServerConfig) :
  Config.loadConfig rt env = Ok config ->
  Config.useSandbox config
  = Config.parseBooleanEnvVar env "INFAKT_USE_SANDBOX" false /\
  Config.baseUrl config
  = (if Config.parseBooleanEnvVar env "INFAKT_USE_SANDBOX" false
     then Config.SANDBOX
     else match env "INFAKT_BASE_URL" with
          | Some url => url
          | None => Config.PRODUCTION
          end).
Proof.
  unfold Config.loadConfig. intros Hload.
  destruct (Config.requireEnvVar env "INFAKT_API_KEY") as [key|];
    [|discriminate Hload].
  cbn [bind] in Hload.
  destruct (Config.validateApiKey key); [|discriminate Hload].
  cbn [bind] in Hload.
  destruct (Config.validateUrl rt _); [|discriminate Hload].
  cbn [bind] in Hload. inversion Hload. split; reflexivity.
Qed.

Lemma loadConfig_base_url_witness :
  Config.useSandbox
    {| Config.apiKey := "0123456789abcdef"; Config.baseUrl := Config.SANDBOX;
       Config.useSandbox := true |}
  = Config.parseBooleanEnvVar sandbox_environment "INFAKT_USE_SANDBOX" false /\
  Config.baseUrl
    {| Config.apiKey := "0123456789abcdef"; Config.baseUrl := Config.SANDBOX;
       Config.useSandbox := true |}
  = (if Config.parseBooleanEnvVar sandbox_environment "INFAKT_USE_SANDBOX" false
     then Config.SANDBOX
     else match sandbox_environment "INFAKT_BASE_URL" with
          | Some url => url
          | None => Config.PRODUCTION
          end).
Proof.
  apply (loadConfig_base_url fixed_runtime sandbox_environment).
  reflexivity.
Defined.

End ErrorsAndConfiguration.

Section OperationHandlers.

(* ===================================================================== *)
(** * Properties of the operation handlers *)
(* ===================================================================== *)

Import Validation ApiClient Handlers Dispatcher.

(** Peels the validations off a handler that reached its remote call. *)
Ltac reached_call H :=
  repeat match type of H with
         | bind ?r _ = Ok _ =>
             let a := fresh "a" in
             destruct r as [a|]; cbn [bind] in H; [|discriminate H]
         end.

(** The response that a handler builds from the decoded body of its remote
    call, for the handlers that answer with that body. *)
Lemma handler_response rt t args req respond :
  handler t rt args = Ok (CallJson req respond) ->
  returns_remote_json t = true ->
  forall body,
    respond body
    = {| content :=
           [JSON_stringify rt
              (if converts_money (group_of t)
               then convertAllMonetaryFields body else body)] |}.
Proof.
  intros Hcall Hjson body.
  destruct t; try discriminate Hjson; cbn [handler] in Hcall;
    unfold Invoice.createInvoice, Invoice.checkInvoiceStatus,
      Invoice.listInvoices, Invoice.getInvoice, Invoice.updateInvoice,
      Invoice.sendInvoiceEmail, Invoice.markInvoicePaid,
      Client.listClients, Client.getClient, Client.createClient,
      Client.updateClient, Product.listProducts, Product.getProduct,
      Product.createProduct, Product.updateProduct,
      Reference.getVatRates, Reference.getBankAccounts,
      Reference.getAccountInfo, Reference.read_only,
      Cost.listCosts, Cost.getCost in Hcall;
    reached_call Hcall; inversion Hcall; reflexivity.
Qed.

Lemma handler_binary_call rt t args req respond :
  handler t rt args = Ok (CallBinary req respond) -> t = downloadInvoicePdf.
Proof.
  intros Hcall.
  destruct t; try reflexivity; cbn [handler] in Hcall;
    unfold Invoice.createInvoice, Invoice.checkInvoiceStatus,
      Invoice.listInvoices, Invoice.getInvoice, Invoice.updateInvoice,
      Invoice.deleteInvoice, Invoice.sendInvoiceEmail, Invoice.markInvoicePaid,
      Client.listClients, Client.getClient, Client.createClient,
      Client.updateClient, Client.deleteClient,
      Product.listProducts, Product.getProduct,
      Product.createProduct, Product.updateProduct, Product.deleteProduct,
      Reference.getVatRates, Reference.getBankAccounts,
      Reference.getAccountInfo, Reference.read_only,
      Cost.listCosts, Cost.getCost in Hcall;
    reached_call Hcall; discriminate Hcall.
Qed.

(** C4, as stated, fails for the PDF download, a handler of the invoice
    group: when its remote call succeeds, the bytes it received are encoded
    and returned in two text blocks, and nothing passes through the unit
    converter. *)
Lemma pdf_download_skips_converter :
  group_of downloadInvoicePdf = Invoices /\
  find_tool "infakt_download_invoice_pdf" TOOL_HANDLERS = Some downloadInvoicePdf /\
  handleToolCall fixed_runtime fixed_service "infakt_download_invoice_pdf"
    pdf_arguments
  = Ok {| content :=
            [ Some "PDF downloaded successfully. Base64 encoded (4 characters). Use base64 decode to save the file.";
              Some "TWFu" ] |} /\
  (forall rt body,
      handleToolCall fixed_runtime fixed_service "infakt_download_invoice_pdf"
        pdf_arguments
      <> Ok (Invoice.createJsonResponse rt body)).
Proof.
  assert (Hrun : handleToolCall fixed_runtime fixed_service
                   "infakt_download_invoice_pdf" pdf_arguments
                 = Ok {| content :=
                           [ Some "PDF downloaded successfully. Base64 encoded (4 characters). Use base64 decode to save the file.";
                             Some "TWFu" ] |})
    by (vm_compute; reflexivity).
  split; [reflexivity|]. split; [reflexivity|]. split; [exact Hrun|].
  intros rt body. rewrite Hrun. unfold Invoice.createJsonResponse.
  discriminate.
Qed.

(** C4, amended. For every tool invocation whose remote call succeeds and
    whose handler answers with the decoded remote result (every handler
    but the three delete handlers, which answer with a confirmation text,
    and the PDF download, which answers with the encoded bytes), the
    response is one text block holding the serialised result; the invoice,
    client and reference-data handlers pass the result through
    [convertAllMonetaryFields] before serialising it, the product and cost
    handlers serialise it as it is. *)
Theorem json_handlers_conversion rt svc name t args response :
  find_tool name TOOL_HANDLERS = Some t ->
  returns_remote_json t = true ->
  handleToolCall rt svc name args = Ok response ->
  answers_with_remote_json rt svc t args response.
Proof.
  intros Hfind Hjson Hrun. unfold handleToolCall in Hrun. rewrite Hfind in Hrun.
  destruct (handler t rt args) as [[req respond|req respond]|e] eqn:Hcall;
    cbn [run] in Hrun.
  - unfold request_json in Hrun.
    destruct (json svc req) as [body|e] eqn:Hbody; [|discriminate Hrun].
    inversion Hrun; subst. exists req, respond, body.
    repeat split; try assumption.
    now apply (handler_response rt t args req respond).
  - apply handler_binary_call in Hcall. subst t. discriminate Hjson.
  - discriminate Hrun.
Qed.

Lemma json_handlers_conversion_witness :
  answers_with_remote_json fixed_runtime fixed_service createInvoice acme_invoice
    {| content := [Some "{}"] |}.
Proof.
  apply (json_handlers_conversion fixed_runtime fixed_service
           "infakt_create_invoice" createInvoice acme_invoice);
    vm_compute; reflexivity.
Defined.

(** ** What a handler can throw before its remote call *)

Lemma throws_only_bind {A B : Type} (P : exn -> Prop) (r : result A)
      (k : A -> result B) :
  throws_only P r -> (forall a, throws_only P (k a)) -> throws_only P (bind r k).
Proof. destruct r; cbn; auto. Qed.

Lemma throws_only_when (P : exn -> Prop) b r :
  throws_only P r -> throws_only P (when b r).
Proof. destruct b; cbn; auto. Qed.

Lemma throws_only_ok {A : Type} (P : exn -> Prop) (a : A) : throws_only P (Ok a).
Proof. exact I. Qed.

Section ValidatorsThrowValidationErrors.

Variable P : exn -> Prop.
Hypothesis P_validation : forall field message, P (ValidationError field message).

Lemma validateRequiredString_throws v f :
  throws_only P (validateRequiredString v f).
Proof.
  destruct v; cbn; auto. destruct (_ =? _)%nat; cbn; auto.
Qed.

Lemma validatePositiveNumber_throws v f :
  throws_only P (validatePositiveNumber v f).
Proof. destruct v; cbn; auto. destruct (_ || _); cbn; auto. Qed.

Lemma validateNonNegativeNumber_throws v f :
  throws_only P (validateNonNegativeNumber v f).
Proof. destruct v; cbn; auto. destruct (_ || _); cbn; auto. Qed.

Lemma validateUUID_throws v f : throws_only P (validateUUID v f).
Proof. destruct v; cbn; auto. destruct (uuidRegex_test s); cbn; auto. Qed.

Lemma validateEnum_throws v f allowed : throws_only P (validateEnum v f allowed).
Proof.
  destruct v; cbn [validateEnum throws_only]; auto.
  destruct (includes allowed s); cbn; auto.
Qed.

Lemma validateDateString_throws rt v f : throws_only P (validateDateString rt v f).
Proof.
  destruct v; cbn [validateDateString throws_only]; auto.
  destruct (negb (dateRegex_test s)); cbn [throws_only]; auto.
  destruct (date_fields s) as [[y m] d].
  destruct (DateModel.parse_date_only rt y m d); cbn [throws_only]; auto.
  destruct (_ || _); cbn; auto.
Qed.

Lemma validatePaginationParams_throws v :
  throws_only P (validatePaginationParams v).
Proof.
  unfold validatePaginationParams.
  apply throws_only_bind; [|intros _].
  - apply throws_only_when, validateNonNegativeNumber_throws.
  - apply throws_only_when, throws_only_bind;
      [apply validatePositiveNumber_throws|intros _].
    apply throws_only_when. cbn. auto.
Qed.

Lemma validateInvoiceService_throws v i :
  throws_only P (validateInvoiceService v i).
Proof.
  unfold validateInvoiceService.
  destruct (_ || _); [cbn; auto|].
  repeat (apply throws_only_bind; [|intros _]);
    try apply throws_only_when;
    auto using validateRequiredString_throws, validateNonNegativeNumber_throws,
      validatePositiveNumber_throws;
    cbn; auto.
Qed.

Lemma validate_items_throws rt f items :
  forall i, throws_only P (validate_items rt f validateInvoiceService items i).
Proof.
  induction items as [|item rest IH]; intros i; cbn [validate_items]; [exact I|].
  pose proof (validateInvoiceService_throws item i) as Hitem.
  destruct (validateInvoiceService item i) as [|e]; [apply IH|].
  destruct e; cbn in *; auto.
Qed.

Lemma validateArray_services_throws rt v f :
  throws_only P (validateArray rt v f (Some validateInvoiceService)).
Proof.
  destruct v; cbn [validateArray throws_only]; auto.
  destruct items; cbn [throws_only]; auto. apply validate_items_throws.
Qed.

Lemma add_filter_throws v check key filters :
  throws_only P check -> throws_only P (add_filter v check key filters).
Proof.
  intros Hc. unfold add_filter. destruct (truthy v); [|exact I].
  apply throws_only_bind; [exact Hc|intros _; exact I].
Qed.

End ValidatorsThrowValidationErrors.

Ltac validators :=
  repeat first
    [ apply throws_only_bind; [|intros ?]
    | apply throws_only_when
    | apply throws_only_ok
    | apply validateRequiredString_throws
    | apply validatePositiveNumber_throws
    | apply validateNonNegativeNumber_throws
    | apply validateUUID_throws
    | apply validateEnum_throws
    | apply validateDateString_throws
    | apply validatePaginationParams_throws
    | apply validateArray_services_throws
    | apply add_filter_throws ];
  try (intros; exact I).

(** Every error that a handler throws before its remote call is a
    validation error, except the plain errors of three inline checks. *)
Lemma handler_rejections rt t args :
  throws_only (rejection_of t) (handler t rt args).
Proof.
  destruct t; cbn [handler];
    unfold Invoice.createInvoice, Invoice.checkInvoiceStatus,
      Invoice.listInvoices, Invoice.getInvoice, Invoice.updateInvoice,
      Invoice.deleteInvoice, Invoice.downloadInvoicePdf,
      Invoice.sendInvoiceEmail, Invoice.markInvoicePaid,
      Client.listClients, Client.getClient, Client.createClient,
      Client.updateClient, Client.deleteClient,
      Product.listProducts, Product.getProduct,
      Product.createProduct, Product.updateProduct, Product.deleteProduct,
      Reference.getVatRates, Reference.getBankAccounts,
      Reference.getAccountInfo, Reference.read_only,
      Cost.listCosts, Cost.getCost, optional;
    validators; cbn; auto.
Qed.

(** C5. A call of "create invoice" without the services array, or with
    status "paid" and no paid date, is rejected before any remote call,
    but not with a validation error: the handler throws a plain error that
    names no field, and the dispatcher reports it in the internal-error
    category as an unexpected error. Apart from these two checks and the
    tax-symbol check of "create product", every error that a handler
    throws before its remote call is a validation error. *)
Theorem createInvoice_plain_errors (rt : runtime) (svc : service) :
  Invoice.createInvoice rt acme_without_services
    = Throw (Error "services is required") /\
  handleToolCall rt svc "infakt_create_invoice" acme_without_services
    = Throw (McpError InternalError "Unexpected error: services is required") /\
  Invoice.createInvoice rt acme_paid_without_date
    = Throw (Error "paid_date is required when status is 'paid'") /\
  handleToolCall rt svc "infakt_create_invoice" acme_paid_without_date
    = Throw (McpError InternalError
               "Unexpected error: paid_date is required when status is 'paid'") /\
  (forall t args e, handler t rt args = Throw e -> rejection_of t e).
Proof.
  split; [reflexivity|]. split; [reflexivity|].
  split; [reflexivity|]. split; [reflexivity|].
  intros t args e Hthrow.
  pose proof (handler_rejections rt t args) as Hrej.
  rewrite Hthrow in Hrej. exact Hrej.
Qed.

End OperationHandlers.

(* ===================================================================== *)
(** * The round trip between minor and major units *)
(* ===================================================================== *)

Section RoundTrip.

(** ** Rounding in the binary64 format *)












(** ** The numbers of the round trip *)












End RoundTrip.

Section FurtherValidation.

(* ===================================================================== *)
(** * Further properties of the input validator *)
(* ===================================================================== *)

Import Validation.

(** ** Numbers *)

Lemma isFinite_spec x :
  isFinite x = match Prim2SF x with
               | S754_zero _ | S754_finite _ _ _ => true
               | _ => false
               end.
Proof.
  unfold isFinite, PrimFloat.is_nan, PrimFloat.is_infinity.
  rewrite !eqb_spec, abs_spec.
  change (Prim2SF infinity) with (S754_infinity false).
  destruct (Prim2SF x) as [s|s| |s m e]; try destruct s; try reflexivity;
    unfold SFeqb, SFabs, SFcompare;
    rewrite Z.compare_refl, Pos.compare_cont_refl; reflexivity.
Qed.

Lemma positive_check_spec x :
  (x <=? 0)%float || negb (isFinite x) = false <-> positive_number x.
Proof.
  rewrite isFinite_spec, leb_spec. change (Prim2SF 0) with (S754_zero false).
  unfold positive_number.
  destruct (Prim2SF x) as [s|s| |s m e]; try destruct s; cbn;
    split; try discriminate; try (intros (m' & e' & H); discriminate H).
  all: intros _; eauto.
Qed.

Lemma non_negative_check_spec x :
  (x <? 0)%float || negb (isFinite x) = false <-> non_negative_number x.
Proof.
  rewrite isFinite_spec, ltb_spec. change (Prim2SF 0) with (S754_zero false).
  unfold non_negative_number, positive_number.
  destruct (Prim2SF x) as [s|s| |s m e]; try destruct s; cbn;
    split; try discriminate;
    try (intros [(s' & H)|(m' & e' & H)]; discriminate H);
    intros _; eauto.
Qed.

Lemma validatePositiveNumber_ok v field :
  validatePositiveNumber v field = Ok tt <->
  exists x, v = VNum x /\ positive_number x.
Proof.
  unfold validatePositiveNumber.
  destruct v as [| | |x| | |];
    try (split; [discriminate|intros (x' & H & _); discriminate H]).
  destruct ((x <=? 0)%float || negb (isFinite x)) eqn:Hc.
  - split; [discriminate|]. intros (x' & Hx & Hp). inversion Hx; subst x'.
    apply positive_check_spec in Hp. congruence.
  - split; [|reflexivity]. intros _. exists x. split; [reflexivity|].
    now apply positive_check_spec.
Qed.

Lemma validateNonNegativeNumber_ok v field :
  validateNonNegativeNumber v field = Ok tt <->
  exists x, v = VNum x /\ non_negative_number x.
Proof.
  unfold validateNonNegativeNumber.
  destruct v as [| | |x| | |];
    try (split; [discriminate|intros (x' & H & _); discriminate H]).
  destruct ((x <? 0)%float || negb (isFinite x)) eqn:Hc.
  - split; [discriminate|]. intros (x' & Hx & Hp). inversion Hx; subst x'.
    apply non_negative_check_spec in Hp. congruence.
  - split; [|reflexivity]. intros _. exists x. split; [reflexivity|].
    now apply non_negative_check_spec.
Qed.

(** X1. [validatePositiveNumber] accepts exactly the finite Numbers above
    zero and [validateNonNegativeNumber] exactly the finite Numbers that
    are not below zero, which include the negative zero; [NaN], both
    infinities and every value that is not a Number are rejected by both,
    and whatever the first accepts the second accepts too. *)
Theorem number_validators_accept :
  (forall v field,
      validatePositiveNumber v field = Ok tt <->
      exists x, v = VNum x /\ positive_number x) /\
  (forall v field,
      validateNonNegativeNumber v field = Ok tt <->
      exists x, v = VNum x /\ non_negative_number x) /\
  (forall v field field',
      validatePositiveNumber v field = Ok tt ->
      validateNonNegativeNumber v field' = Ok tt) /\
  (forall field,
      validateNonNegativeNumber (VNum (-0)) field = Ok tt /\
      validatePositiveNumber (VNum (-0)) field
      = Throw (ValidationError field "must be a positive number") /\
      validatePositiveNumber (VNum nan) field
      = Throw (ValidationError field "must be a positive number") /\
      validateNonNegativeNumber (VNum nan) field
      = Throw (ValidationError field "must be a non-negative number") /\
      validatePositiveNumber (VNum infinity) field
      = Throw (ValidationError field "must be a positive number") /\
      validateNonNegativeNumber (VNum infinity) field
      = Throw (ValidationError field "must be a non-negative number") /\
      validatePositiveNumber (VStr "5") field
      = Throw (ValidationError field "must be a positive number")).
Proof.
  split; [exact validatePositiveNumber_ok|].
  split; [exact validateNonNegativeNumber_ok|].
  split.
  - intros v field field' Hpos.
    apply validatePositiveNumber_ok in Hpos. destruct Hpos as (x & -> & Hp).
    apply validateNonNegativeNumber_ok. exists x. split; [reflexivity|].
    right. exact Hp.
  - intros field. repeat split.
Qed.

(** ** Identifiers *)

Lemma hex_group_spec n l rest :
  hex_group n l = Some rest <->
  exists g, List.length g = n /\ forallb is_hex g = true /\ l = g ++ rest.
Proof.
  revert l. induction n as [|n IH]; intros l; cbn [hex_group].
  - split.
    + intros H. inversion H; subst. exists []. auto.
    + intros (g & Hlen & _ & ->). destruct g; [reflexivity|discriminate Hlen].
  - destruct l as [|c l'].
    + split; [discriminate|].
      intros (g & Hlen & _ & Happ). destruct g; discriminate.
    + destruct (is_hex c) eqn:Hc.
      * rewrite IH. split.
        -- intros (g & Hlen & Hall & ->). exists (c :: g).
           cbn [List.length forallb app]. rewrite Hc, Hall, Hlen. auto.
        -- intros (g & Hlen & Hall & Happ).
           destruct g as [|c' g]; [discriminate Hlen|].
           cbn [List.length forallb app] in *. inversion Happ; subst.
           apply andb_true_iff in Hall. destruct Hall as [_ Hall].
           exists g. auto.
      * split; [discriminate|].
        intros (g & Hlen & Hall & Happ).
        destruct g as [|c' g]; [discriminate Hlen|].
        cbn [forallb app] in *. inversion Happ; subst.
        rewrite Hc in Hall. discriminate Hall.
Qed.

Lemma dash_then_spec k l :
  dash_then k l = true <-> exists rest, l = "-"%char :: rest /\ k rest = true.
Proof.
  unfold dash_then. destruct l as [|c rest].
  - split; [discriminate|]. intros (r & H & _). discriminate H.
  - rewrite andb_true_iff. split.
    + intros [Hc Hk]. apply Ascii.eqb_eq in Hc. subst. eauto.
    + intros (r & H & Hk). inversion H; subst. now rewrite Ascii.eqb_refl.
Qed.

Lemma forallb_app_true {A : Type} (f : A -> bool) l1 l2 :
  forallb f (l1 ++ l2) = true <-> forallb f l1 = true /\ forallb f l2 = true.
Proof. rewrite forallb_app. apply andb_true_iff. Qed.

Lemma uuidRegex_test_spec s : uuidRegex_test s = true <-> is_uuid s.
Proof.
  unfold uuidRegex_test, is_uuid. split.
  - intros H.
    destruct (hex_group 8 (chars s)) as [r1|] eqn:H1; [|discriminate H].
    apply dash_then_spec in H. destruct H as (r1' & -> & H).
    destruct (hex_group 4 r1') as [r2|] eqn:H2; [|discriminate H].
    apply dash_then_spec in H. destruct H as (r2' & -> & H).
    destruct (hex_group 4 r2') as [r3|] eqn:H3; [|discriminate H].
    apply dash_then_spec in H. destruct H as (r3' & -> & H).
    destruct (hex_group 4 r3') as [r4|] eqn:H4; [|discriminate H].
    apply dash_then_spec in H. destruct H as (r4' & -> & H).
    destruct (hex_group 12 r4') as [r5|] eqn:H5; [|discriminate H].
    destruct r5; [|discriminate H].
    apply hex_group_spec in H1, H2, H3, H4, H5.
    destruct H1 as (g1 & L1 & A1 & E1), H2 as (g2 & L2 & A2 & E2),
             H3 as (g3 & L3 & A3 & E3), H4 as (g4 & L4 & A4 & E4),
             H5 as (g5 & L5 & A5 & E5).
    exists g1, g2, g3, g4, g5. repeat (split; [assumption|]). split.
    + repeat (apply forallb_app_true; split); assumption.
    + rewrite E1, E2, E3, E4, E5, app_nil_r. reflexivity.
  - intros (g1 & g2 & g3 & g4 & g5 & L1 & L2 & L3 & L4 & L5 & Hall & E).
    repeat (apply forallb_app_true in Hall;
            let H := fresh "A" in destruct Hall as [H Hall]).
    assert (G : forall n g rest, List.length g = n -> forallb is_hex g = true ->
                                 hex_group n (g ++ rest) = Some rest)
      by (intros n g rest Hl Ha; apply hex_group_spec; eauto).
    rewrite E, (G 8%nat g1) by assumption. cbn [dash_then].
    rewrite Ascii.eqb_refl. cbn [andb].
    rewrite (G 4%nat g2) by assumption. cbn [dash_then].
    rewrite Ascii.eqb_refl. cbn [andb].
    rewrite (G 4%nat g3) by assumption. cbn [dash_then].
    rewrite Ascii.eqb_refl. cbn [andb].
    rewrite (G 4%nat g4) by assumption. cbn [dash_then].
    rewrite Ascii.eqb_refl. cbn [andb].
    rewrite <- (app_nil_r g5), (G 12%nat g5) by assumption. reflexivity.
Qed.

Lemma chars_length s : List.length (chars s) = String.length s.
Proof.
  unfold chars. induction s as [|c s IH]; cbn; [reflexivity|now rewrite IH].
Qed.

(** X2. [validateUUID] accepts exactly the strings spelled as five groups
    of 8, 4, 4, 4 and 12 hexadecimal digits, of either case, joined by
    dashes; such a string has 36 characters, every one of them a
    hexadecimal digit or a dash. Any other string is rejected as not a
    valid UUID, and a value that is not a string as not a string. *)
Theorem validateUUID_accepts :
  (forall value field,
      validateUUID value field = Ok tt <->
      exists s, value = VStr s /\ is_uuid s) /\
  (forall s, is_uuid s ->
      String.length s = 36%nat /\
      forallb (fun c => is_hex c || Ascii.eqb c "-") (chars s) = true) /\
  (forall value field e,
      validateUUID value field = Throw e ->
      e = ValidationError field
            (if is_string value then "is not a valid UUID" else "must be a string")).
Proof.
  split; [|split].
  - intros value field. unfold validateUUID.
    destruct value as [| | | |s| |];
      try (split; [discriminate|intros (s' & H & _); discriminate H]).
    destruct (uuidRegex_test s) eqn:Hre.
    + split; [|reflexivity]. intros _. exists s. split; [reflexivity|].
      now apply uuidRegex_test_spec.
    + split; [discriminate|]. intros (s' & Hs & Hu). inversion Hs; subst s'.
      apply uuidRegex_test_spec in Hu. congruence.
  - intros s (g1 & g2 & g3 & g4 & g5 & L1 & L2 & L3 & L4 & L5 & Hall & E).
    split.
    + rewrite <- chars_length, E.
      cbn [List.length]. rewrite !length_app. cbn [List.length].
      rewrite !length_app. cbn [List.length]. rewrite !length_app.
      cbn [List.length]. rewrite !length_app. cbn [List.length]. lia.
    + rewrite E.
      assert (W : forall g, forallb is_hex g = true ->
                  forallb (fun c => is_hex c || Ascii.eqb c "-") g = true).
      { intros g Hg. rewrite forallb_forall in *. intros c Hc.
        rewrite (Hg c Hc). reflexivity. }
      repeat (apply forallb_app_true in Hall;
              let H := fresh "A" in destruct Hall as [H Hall]).
      repeat (apply forallb_app_true; split; [now apply W|];
              cbn [forallb]; rewrite Ascii.eqb_refl, orb_true_r; cbn [andb]).
      now apply W.
  - intros value field e. unfold validateUUID.
    destruct value; cbn [is_string]; try (intros H; inversion H; reflexivity).
    destruct (uuidRegex_test s); [discriminate|].
    intros H; inversion H; reflexivity.
Qed.

(** ** E-mail addresses *)

Lemma plain_plus_spec k l :
  Email.plain_plus k l = true <->
  exists run rest,
    run <> [] /\ forallb Email.plain run = true /\ l = run ++ rest /\
    k rest = true.
Proof.
  induction l as [|c l IH]; cbn [Email.plain_plus].
  - split; [discriminate|].
    intros (run & rest & Hne & _ & Happ & _).
    destruct run; [congruence|discriminate Happ].
  - rewrite andb_true_iff, orb_true_iff, IH. split.
    + intros [Hc [(run & rest & Hne & Hall & -> & Hk)|Hk]].
      * exists (c :: run), rest. cbn [forallb app]. rewrite Hc, Hall.
        repeat split; auto. discriminate.
      * exists [c], l. cbn [forallb app]. rewrite Hc.
        repeat split; auto. discriminate.
    + intros (run & rest & Hne & Hall & Happ & Hk).
      destruct run as [|c' run]; [congruence|].
      cbn [forallb app] in *. inversion Happ; subst.
      apply andb_true_iff in Hall. destruct Hall as [Hc Hall].
      split; [exact Hc|].
      destruct run as [|c'' run]; [right; exact Hk|left].
      exists (c'' :: run), rest. repeat split; auto. discriminate.
Qed.

Lemma literal_spec a k l :
  Email.literal a k l = true <-> exists rest, l = a :: rest /\ k rest = true.
Proof.
  unfold Email.literal. destruct l as [|c rest].
  - split; [discriminate|]. intros (r & H & _). discriminate H.
  - rewrite andb_true_iff. split.
    + intros [Hc Hk]. apply Ascii.eqb_eq in Hc. subst. eauto.
    + intros (r & H & Hk). inversion H; subst. now rewrite Ascii.eqb_refl.
Qed.

Lemma emailRegex_test_spec s : Email.emailRegex_test s = true <-> is_email s.
Proof.
  unfold Email.emailRegex_test, is_email. rewrite plain_plus_spec. split.
  - intros (local & r1 & N1 & A1 & E1 & H).
    apply literal_spec in H. destruct H as (r2 & -> & H).
    apply plain_plus_spec in H. destruct H as (domain & r3 & N2 & A2 & -> & H).
    apply literal_spec in H. destruct H as (r4 & -> & H).
    apply plain_plus_spec in H. destruct H as (tld & r5 & N3 & A3 & -> & H).
    destruct r5; [|discriminate H]. rewrite app_nil_r in E1.
    exists local, domain, tld. repeat (split; [assumption|]). split.
    + repeat (apply forallb_app_true; split); assumption.
    + exact E1.
  - intros (local & domain & tld & N1 & N2 & N3 & Hall & E).
    repeat (apply forallb_app_true in Hall;
            let H := fresh "A" in destruct Hall as [H Hall]).
    exists local, ("@"%char :: domain ++ "."%char :: tld).
    repeat (split; [assumption|]).
    apply literal_spec. eexists. split; [reflexivity|].
    apply plain_plus_spec. exists domain, ("."%char :: tld).
    repeat (split; [assumption || reflexivity|]).
    apply literal_spec. eexists. split; [reflexivity|].
    apply plain_plus_spec. exists tld, []. rewrite app_nil_r.
    repeat (split; [assumption || reflexivity|]). reflexivity.
Qed.

(** X3. [validateEmail] accepts exactly the strings of the shape
    local@domain.tld, where the three parts are not empty and hold neither
    white space nor ["@"]; so an accepted address has exactly one ["@"],
    which is not its first character, and no white space. Every other
    string is rejected as not a valid email address, and a value that is
    not a string as not a string. *)
Theorem validateEmail_accepts :
  (forall value field,
      Email.validateEmail value field = Ok tt <->
      exists s, value = VStr s /\ is_email s) /\
  (forall s, is_email s ->
      count_occ ascii_dec (chars s) "@"%char = 1%nat /\
      forallb (fun c => negb (is_space c)) (chars s) = true /\
      hd_error (chars s) <> Some "@"%char) /\
  (forall value field e,
      Email.validateEmail value field = Throw e ->
      e = ValidationError field
            (if is_string value then "is not a valid email address"
             else "must be a string")) /\
  (forall field,
      Email.validateEmail (VStr "jan.kowalski@example.com") field = Ok tt /\
      Email.validateEmail (VStr "jan@localhost") field
      = Throw (ValidationError field "is not a valid email address") /\
      Email.validateEmail (VStr "jan kowalski@example.com") field
      = Throw (ValidationError field "is not a valid email address") /\
      Email.validateEmail (VStr "jan@@example.com") field
      = Throw (ValidationError field "is not a valid email address")).
Proof.
  split; [|split; [|split]].
  - intros value field. unfold Email.validateEmail.
    destruct value as [| | | |s| |];
      try (split; [discriminate|intros (s' & H & _); discriminate H]).
    destruct (Email.emailRegex_test s) eqn:Hre.
    + split; [|reflexivity]. intros _. exists s. split; [reflexivity|].
      now apply emailRegex_test_spec.
    + split; [discriminate|]. intros (s' & Hs & Hu). inversion Hs; subst s'.
      apply emailRegex_test_spec in Hu. congruence.
  - intros s (local & domain & tld & N1 & N2 & N3 & Hall & E).
    repeat (apply forallb_app_true in Hall;
            let H := fresh "A" in destruct Hall as [H Hall]).
    assert (Hat : forall l, forallb Email.plain l = true ->
                            count_occ ascii_dec l "@"%char = 0%nat).
    { intros l Hl. apply count_occ_not_In. intros Hin.
      rewrite forallb_forall in Hl. apply Hl in Hin.
      unfold Email.plain in Hin. rewrite Ascii.eqb_refl, andb_false_r in Hin.
      discriminate Hin. }
    assert (Hsp : forall l, forallb Email.plain l = true ->
                            forallb (fun c => negb (is_space c)) l = true).
    { intros l Hl. rewrite forallb_forall in *. intros c Hc.
      apply Hl in Hc. unfold Email.plain in Hc.
      apply andb_true_iff in Hc. tauto. }
    rewrite E. split; [|split].
    + rewrite count_occ_app, (Hat local) by assumption.
      rewrite count_occ_cons_eq by reflexivity.
      rewrite count_occ_app, (Hat domain) by assumption.
      rewrite count_occ_cons_neq by discriminate.
      rewrite (Hat tld) by assumption. reflexivity.
    + apply forallb_app_true. split; [now apply Hsp|].
      cbn [forallb]. change (negb (is_space "@")) with true. cbn [andb].
      apply forallb_app_true. split; [now apply Hsp|].
      cbn [forallb]. change (negb (is_space ".")) with true. cbn [andb].
      now apply Hsp.
    + destruct local as [|c local]; [congruence|]. cbn [app hd_error].
      cbn [forallb] in A. apply andb_true_iff in A. destruct A as [Hc _].
      intros Heq. inversion Heq; subst c. discriminate Hc.
  - intros value field e. unfold Email.validateEmail.
    destruct value; cbn [is_string]; try (intros H; inversion H; reflexivity).
    destruct (Email.emailRegex_test s); [discriminate|].
    intros H; inversion H; reflexivity.
  - intros field. repeat split.
Qed.

(** ** Arrays *)

Lemma validate_items_ok rt fieldName validator items index :
  validate_items rt fieldName validator items index = Ok tt <->
  (forall i item, nth_error items i = Some item ->
                  validator item (index + N.of_nat i)%N = Ok tt).
Proof.
  revert index. induction items as [|it items IH]; intros index.
  - cbn [validate_items]. split; [|reflexivity].
    intros _ i item H. destruct i; discriminate H.
  - cbn [validate_items]. destruct (validator it index) as [[]|e] eqn:Hit.
    + rewrite IH. split.
      * intros Hall [|i] item H; cbn [nth_error] in H.
        -- inversion H; subst. now rewrite N.add_0_r.
        -- replace (index + N.of_nat (S i))%N with (index + 1 + N.of_nat i)%N
             by lia.
           now apply Hall.
      * intros Hall i item H.
        replace (index + 1 + N.of_nat i)%N with (index + N.of_nat (S i))%N
          by lia.
        now apply Hall.
    + split.
      * destruct e; discriminate.
      * intros Hall. specialize (Hall 0%nat it eq_refl).
        rewrite N.add_0_r in Hall. congruence.
Qed.

Lemma validate_items_stops rt fieldName validator good item rest index e :
  (forall i it, nth_error good i = Some it ->
                validator it (index + N.of_nat i)%N = Ok tt) ->
  validator item (index + N.of_nat (List.length good))%N = Throw e ->
  validate_items rt fieldName validator (good ++ item :: rest) index
  = Throw (rethrown rt fieldName (index + N.of_nat (List.length good)) e).
Proof.
  revert index. induction good as [|g good IH]; intros index Hgood Hitem.
  - cbn [app validate_items List.length] in *. rewrite N.add_0_r in *.
    rewrite Hitem. destruct e; reflexivity.
  - cbn [app validate_items List.length].
    pose proof (Hgood 0%nat g eq_refl) as Hg. rewrite N.add_0_r in Hg.
    rewrite Hg. cbn [List.length] in Hitem.
    replace (index + N.of_nat (S (List.length good)))%N
      with (index + 1 + N.of_nat (List.length good))%N in * by lia.
    apply IH; [|exact Hitem].
    intros i it Hi.
    replace (index + 1 + N.of_nat i)%N with (index + N.of_nat (S i))%N by lia.
    now apply Hgood.
Qed.

(** X4. [validateArray] accepts exactly the arrays that are not empty and
    whose every item passes the item validator at its own position (any
    array that is not empty when no validator is given). The items are
    checked in order and the check stops at the first item that fails: the
    error of the validator is thrown again, a validation error with the
    name of the array and the position of the item put before its field,
    any other error as it is, and the items behind it are not looked at. *)
Theorem validateArray_accepts (rt : runtime) (fieldName : string)
        (validator : value -> N -> result unit) :
  (forall value,
      validateArray rt value fieldName (Some validator) = Ok tt <->
      exists items,
        value = VArr items /\ items <> [] /\
        forall i item, nth_error items i = Some item ->
                       validator item (N.of_nat i) = Ok tt) /\
  (forall value,
      validateArray rt value fieldName None = Ok tt <->
      exists items, value = VArr items /\ items <> []) /\
  (forall good item rest e,
      (forall i it, nth_error good i = Some it ->
                    validator it (N.of_nat i) = Ok tt) ->
      validator item (N.of_nat (List.length good)) = Throw e ->
      validateArray rt (VArr (good ++ item :: rest)) fieldName (Some validator)
      = Throw (rethrown rt fieldName (N.of_nat (List.length good)) e)) /\
  (forall check,
      validateArray rt (VArr []) fieldName check
      = Throw (ValidationError fieldName "must not be empty") /\
      validateArray rt (VObj []) fieldName check
      = Throw (ValidationError fieldName "must be an array") /\
      validateArray rt VUndefined fieldName check
      = Throw (ValidationError fieldName "must be an array")).
Proof.
  split; [|split; [|split]].
  - intros value. unfold validateArray.
    destruct value as [| | | | |items|];
      try (split; [discriminate|intros (it & H & _); discriminate H]).
    destruct items as [|a items].
    + split; [discriminate|]. intros (it & H & Hne & _).
      inversion H; subst. congruence.
    + rewrite validate_items_ok. split.
      * intros Hall. exists (a :: items). repeat split; [discriminate|].
        intros i item Hi. now apply (Hall i item).
      * intros (it & H & _ & Hall). inversion H; subst.
        intros i item Hi. now apply (Hall i item).
  - intros value. unfold validateArray.
    destruct value as [| | | | |items|];
      try (split; [discriminate|intros (it & H & _); discriminate H]).
    destruct items as [|a items].
    + split; [discriminate|]. intros (it & H & Hne).
      inversion H; subst. congruence.
    + split; [|reflexivity]. intros _. exists (a :: items).
      split; [reflexivity|discriminate].
  - intros good item rest e Hgood Hitem. unfold validateArray.
    destruct (good ++ item :: rest) eqn:Happ.
    + destruct good; discriminate Happ.
    + rewrite <- Happ.
      apply (validate_items_stops rt fieldName validator good item rest 0%N e);
        assumption.
  - intros check. repeat split.
Qed.

(** ** Line items *)

Lemma seq_ok (r k : result unit) :
  (r ;; k) = Ok tt <-> r = Ok tt /\ k = Ok tt.
Proof.
  destruct r as [[]|e]; cbn [bind]; split; try tauto; try discriminate;
    try (intros [H _]; discriminate H).
Qed.

Lemma validateRequiredString_ok v field :
  validateRequiredString v field = Ok tt <->
  exists s, v = VStr s /\ String.length (trim s) <> 0%nat.
Proof.
  unfold validateRequiredString.
  destruct v as [| | | |s| |];
    try (split; [discriminate|intros (s' & H & _); discriminate H]).
  destruct (Nat.eqb_spec (String.length (trim s)) 0) as [Hz|Hnz].
  - split; [discriminate|]. intros (s' & H & Hne). inversion H; subst.
    contradiction.
  - split; [|reflexivity]. intros _. eauto.
Qed.

Lemma optional_non_negative_ok v field :
  when (negb (is_undefined v)) (validateNonNegativeNumber v field) = Ok tt <->
  absent_or non_negative_number v.
Proof.
  unfold absent_or, when.
  destruct (is_undefined v) eqn:Hu; cbn [negb].
  - destruct v; try discriminate Hu. split; auto.
  - rewrite validateNonNegativeNumber_ok. split; [auto|].
    intros [->|H]; [discriminate Hu|exact H].
Qed.

Lemma optional_positive_ok v field :
  when (negb (is_undefined v)) (validatePositiveNumber v field) = Ok tt <->
  absent_or positive_number v.
Proof.
  unfold absent_or, when.
  destruct (is_undefined v) eqn:Hu; cbn [negb].
  - destruct v; try discriminate Hu. split; auto.
  - rewrite validatePositiveNumber_ok. split; [auto|].
    intros [->|H]; [discriminate Hu|exact H].
Qed.

Lemma is_undefined_false v : is_undefined v = false <-> v <> VUndefined.
Proof. destruct v; cbn; split; congruence. Qed.

Lemma validateInvoiceService_ok service index :
  validateInvoiceService service index = Ok tt <-> service_ok service.
Proof.
  unfold service_ok.
  destruct service as [| | | | |items|fields];
    try (split; [intros H; cbv in H; destruct b; discriminate H
                |intros [(f & H) _]; discriminate H]);
    try (split; [intros H; cbv in H; discriminate H
                |intros [(f & H) _]; discriminate H]).
  (* left: Numbers and strings, which are not objects, and objects; an
     array has no name *)
  - (* a Number *)
    split; [|intros [(f & H) _]; discriminate H].
    unfold validateInvoiceService. cbn [truthy typeof negb orb].
    rewrite orb_true_r. cbv beta iota. intros H. discriminate H.
  - (* a string *)
    split; [|intros [(f & H) _]; discriminate H].
    unfold validateInvoiceService. cbn [truthy typeof negb orb].
    rewrite orb_true_r. cbv beta iota. intros H. discriminate H.
  - unfold validateInvoiceService. cbn [truthy typeof negb orb].
    rewrite !seq_ok, validateRequiredString_ok.
    rewrite !optional_non_negative_ok, optional_positive_ok.
    set (tax := get (VObj fields) "tax_symbol").
    set (net := get (VObj fields) "net_price").
    set (unit_net := get (VObj fields) "unit_net_price").
    set (gross := get (VObj fields) "gross_price").
    assert (Htax : when (is_undefined tax ||
                         negb (is_string tax) && negb (is_number tax))
                     (Throw (ValidationError "tax_symbol"
                               "is required and must be a string or number"))
                   = Ok tt <->
                   is_string tax || is_number tax = true)
      by (destruct tax; cbn; split; congruence).
    assert (Hany : when (is_undefined net && is_undefined unit_net &&
                         is_undefined gross)
                     (Throw (ValidationError "services"
                               "each service must have at least one of: net_price, unit_net_price, or gross_price"))
                   = Ok tt <->
                   net <> VUndefined \/ unit_net <> VUndefined \/
                   gross <> VUndefined).
    { rewrite <- !is_undefined_false.
      destruct (is_undefined net), (is_undefined unit_net),
        (is_undefined gross); cbn; split; try tauto; try discriminate.
      intros [H|[H|H]]; discriminate H. }
    rewrite Htax, Hany. split.
    + intros H. split; [eauto|]. tauto.
    + intros [_ H]. tauto.
Qed.

(** X5. [validateInvoiceService] accepts exactly the objects that have a
    name which is a string and not blank, a tax symbol which is a string
    or a Number, a net price, a unit net price and a gross price each
    absent or a finite Number not below zero, at least one of the three
    present, and a quantity absent or a finite Number above zero. Values
    that are not objects are rejected with the position of the item in the
    name of the field, and a fault of the name is reported whatever else is
    wrong with the item. *)
Theorem validateInvoiceService_accepts :
  (forall service index,
      validateInvoiceService service index = Ok tt <-> service_ok service) /\
  (forall service index,
      match service with VObj _ | VArr _ => False | _ => True end ->
      validateInvoiceService service index
      = Throw (ValidationError ("services[" ++ decimal index ++ "]")
                 "must be an object")) /\
  (forall fields index,
      validateRequiredString (get (VObj fields) "name") "name" <> Ok tt ->
      validateInvoiceService (VObj fields) index
      = Throw (ValidationError "name" "must be a non-empty string")) /\
  validateInvoiceService
    (VObj [("name", VStr "Dev"); ("tax_symbol", VStr "zw");
           ("unit_net_price", VNum 5000); ("quantity", VNum 0)]) 3
  = Throw (ValidationError "quantity" "must be a positive number") /\
  validateInvoiceService VNull 3
  = Throw (ValidationError "services[3]" "must be an object").
Proof.
  split; [|split; [|split; [|split]]].
  - exact validateInvoiceService_ok.
  - intros service index Hno. unfold validateInvoiceService.
    destruct service; try contradiction; cbn [truthy typeof negb orb];
      rewrite ?orb_true_r; reflexivity.
  - intros fields index Hname. unfold validateInvoiceService.
    cbn [truthy typeof negb orb].
    unfold validateRequiredString in *.
    destruct (get (VObj fields) "name") as [| | | |s| |]; try reflexivity.
    destruct (String.length (trim s) =? 0)%nat; [reflexivity|].
    congruence.
  - reflexivity.
  - reflexivity.
Qed.

End FurtherValidation.

Section Configuration.

(* ===================================================================== *)
(** * Further properties of the configuration *)
(* ===================================================================== *)

Import Config ConfigInstance.

(** X6. [loadConfig] returns a configuration exactly when INFAKT_API_KEY
    is set to a key of at least 10 characters and the selected base URL
    parses; the configuration then holds that key, that URL and the parsed
    sandbox flag, which is true only for the texts "true" and "1". A key
    that is missing or empty, a key that is too short and a URL that does
    not parse are reported, in this order, as configuration errors. With
    the sandbox flag set, INFAKT_BASE_URL is not looked at. *)
Theorem loadConfig_accepts (rt : runtime) (env : environment) :
  (forall config,
      loadConfig rt env = Ok config <->
      exists key,
        env "INFAKT_API_KEY" = Some key /\ (10 <= String.length key)%nat /\
        URL_parses rt (selected_base_url env) = true /\
        config = {| apiKey := key; baseUrl := selected_base_url env;
                    useSandbox := parseBooleanEnvVar env "INFAKT_USE_SANDBOX" false |}) /\
  (env "INFAKT_API_KEY" = None \/ env "INFAKT_API_KEY" = Some "" ->
   loadConfig rt env
   = Throw (ConfigurationError
              "Missing required environment variable: INFAKT_API_KEY")) /\
  (forall key,
      env "INFAKT_API_KEY" = Some key -> key <> "" ->
      (String.length key < 10)%nat ->
      loadConfig rt env
      = Throw (ConfigurationError
                 "Invalid API key format: key appears to be too short")) /\
  (forall key,
      env "INFAKT_API_KEY" = Some key -> (10 <= String.length key)%nat ->
      URL_parses rt (selected_base_url env) = false ->
      loadConfig rt env
      = Throw (ConfigurationError
                 ("Invalid URL format: " ++ selected_base_url env))) /\
  (parseBooleanEnvVar env "INFAKT_USE_SANDBOX" false = true <->
   env "INFAKT_USE_SANDBOX" = Some "true" \/ env "INFAKT_USE_SANDBOX" = Some "1") /\
  (parseBooleanEnvVar env "INFAKT_USE_SANDBOX" false = true ->
   selected_base_url env = SANDBOX).
Proof.
  assert (Hshort : forall key, (String.length key <? 10)%nat = false ->
                               String.eqb key "" = false).
  { intros key Hlen. destruct key; [discriminate Hlen|reflexivity]. }
  split; [|split; [|split; [|split; [|split]]]].
  - intros config. unfold loadConfig, requireEnvVar, validateApiKey, validateUrl.
    fold (selected_base_url env).
    destruct (env "INFAKT_API_KEY") as [key|].
    + destruct (String.eqb_spec key "") as [->|Hne]; cbn [bind].
      * split; [discriminate|]. intros (k & Hk & Hlen & _).
        inversion Hk; subst. cbn in Hlen. lia.
      * destruct (Nat.ltb_spec (String.length key) 10) as [Hlt|Hge];
          cbn [bind].
        -- split; [discriminate|]. intros (k & Hk & Hlen & _).
           inversion Hk; subst. lia.
        -- destruct (URL_parses rt (selected_base_url env)) eqn:Hurl;
             cbn [bind].
           ++ split.
              ** intros H. inversion H; subst. exists key. auto.
              ** intros (k & Hk & _ & _ & ->). inversion Hk; subst.
                 reflexivity.
           ++ split; [discriminate|].
              intros (k & _ & _ & H & _). discriminate H.
    + cbn [bind]. split; [discriminate|]. intros (k & Hk & _). discriminate Hk.
  - unfold loadConfig, requireEnvVar. intros [-> | ->]; reflexivity.
  - intros key Hkey Hne Hlen. unfold loadConfig, requireEnvVar, validateApiKey.
    rewrite Hkey.
    destruct (String.eqb_spec key "") as [->|_]; [congruence|]. cbn [bind].
    apply Nat.ltb_lt in Hlen. rewrite Hlen. reflexivity.
  - intros key Hkey Hlen Hurl.
    unfold loadConfig, requireEnvVar, validateApiKey, validateUrl.
    fold (selected_base_url env). rewrite Hkey.
    apply Nat.ltb_ge in Hlen. rewrite (Hshort key Hlen). cbn [bind].
    rewrite Hlen. cbn [bind]. rewrite Hurl. reflexivity.
  - unfold parseBooleanEnvVar. destruct (env "INFAKT_USE_SANDBOX") as [v|].
    + rewrite orb_true_iff, !String.eqb_eq. split.
      * intros [-> | ->]; auto.
      * intros [H|H]; inversion H; auto.
    + split; [discriminate|]. intros [H|H]; discriminate H.
  - intros Hflag. unfold selected_base_url. now rewrite Hflag.
Qed.

(** ** The singleton *)

(** X7. [getConfig] loads the configuration once: after a call that
    returned a configuration, every later call returns the same one
    without reading the environment again, whatever the environment has
    become. A call that failed leaves nothing stored, so the next call
    loads again, and so does the first call after [resetConfig]. *)
Theorem getConfig_loads_once (rt : runtime) (env : environment) :
  (forall before config after,
      getConfig rt env before = (Ok config, after) ->
      after = Some config /\
      forall rt' env', getConfig rt' env' after = (Ok config, after)) /\
  (forall e after,
      getConfig rt env None = (Throw e, after) ->
      after = None /\ loadConfig rt env = Throw e) /\
  (forall before e after,
      getConfig rt env before = (Throw e, after) -> before = None) /\
  (forall before,
      getConfig rt env (resetConfig before)
      = match loadConfig rt env with
        | Ok config => (Ok config, Some config)
        | Throw e => (Throw e, None)
        end).
Proof.
  split; [|split; [|split]].
  - intros before config after. unfold getConfig.
    destruct before as [c|].
    + intros H. inversion H; subst. auto.
    + destruct (loadConfig rt env); intros H; inversion H; subst. auto.
  - intros e after. unfold getConfig.
    destruct (loadConfig rt env); intros H; inversion H; subst. auto.
  - intros before e after. unfold getConfig.
    destruct before; [discriminate|reflexivity].
  - reflexivity.
Qed.

(** ** The masked key *)

Lemma substring_prefix a b :
  String.substring 0 (String.length a) (a ++ b) = a.
Proof.
  induction a as [|c a IH]; cbn.
  - destruct b; reflexivity.
  - now rewrite IH.
Qed.

Lemma substring_skip a b m :
  String.substring (String.length a) m (a ++ b) = String.substring 0 m b.
Proof. induction a as [|c a IH]; cbn; auto. Qed.

Lemma substring_all b m :
  (String.length b <= m)%nat -> String.substring 0 m b = b.
Proof.
  revert m. induction b as [|c b IH]; intros m Hm; cbn in *.
  - destruct m; reflexivity.
  - destruct m as [|m]; [lia|]. rewrite IH by lia. reflexivity.
Qed.

Lemma string_split_at n s :
  (n <= String.length s)%nat ->
  exists a b, s = (a ++ b)%string /\ String.length a = n.
Proof.
  revert s. induction n as [|n IH]; intros s Hn.
  - exists "", s. auto.
  - destruct s as [|c s]; cbn in Hn; [lia|].
    destruct (IH s) as (a & b & -> & Hlen); [lia|].
    exists (String c a), b. cbn. auto.
Qed.

Lemma string_length_app a b :
  String.length (a ++ b) = (String.length a + String.length b)%nat.
Proof. induction a as [|c a IH]; cbn; auto. Qed.

(** X8. For a configuration that [getConfig] has loaded, [getDisplayConfig]
    shows the base URL and the sandbox flag as they are and, of the API
    key, the first four characters, three dots and the last four
    characters: the key is these two parts with at least two hidden
    characters between them, and the masked text has 11 characters
    whatever the length of the key. *)
Theorem getDisplayConfig_masks (rt rt' : runtime) (env env' : environment)
        (config : ServerConfig) (inst : instance) :
  getConfig rt env None = (Ok config, inst) ->
  exists first hidden last,
    apiKey config = (first ++ hidden ++ last)%string /\
    String.length first = 4%nat /\ String.length last = 4%nat /\
    (2 <= String.length hidden)%nat /\
    String.length (first ++ "..." ++ last) = 11%nat /\
    getDisplayConfig rt' env' inst
    = (Ok {| display_baseUrl := baseUrl config;
             display_useSandbox := useSandbox config;
             apiKeyMasked := first ++ "..." ++ last |},
       inst).
Proof.
  intros Hget. unfold getConfig in Hget.
  destruct (loadConfig rt env) as [c|e] eqn:Hload; inversion Hget; subst c inst.
  clear Hget.
  assert (Hlen : (10 <= String.length (apiKey config))%nat).
  { unfold loadConfig, requireEnvVar, validateApiKey in Hload.
    destruct (env "INFAKT_API_KEY") as [key|]; [|discriminate Hload].
    destruct (String.eqb key ""); [discriminate Hload|]. cbn [bind] in Hload.
    destruct (Nat.ltb_spec (String.length key) 10) as [Hlt|Hge];
      [discriminate Hload|].
    cbn [bind] in Hload. destruct (validateUrl rt _); [|discriminate Hload].
    cbn [bind] in Hload. inversion Hload. exact Hge. }
  destruct (string_split_at 4 (apiKey config)) as (first & rest & Hkey & Hfirst);
    [lia|].
  assert (Hrest : (6 <= String.length rest)%nat)
    by (rewrite Hkey, string_length_app in Hlen; lia).
  destruct (string_split_at (String.length rest - 4) rest)
    as (hidden & last & Hr & Hhidden); [lia|].
  subst rest. rewrite string_length_app in Hrest, Hhidden.
  assert (Hlast : String.length last = 4%nat) by lia.
  exists first, hidden, last.
  split; [exact Hkey|]. split; [exact Hfirst|].
  split; [exact Hlast|]. split; [lia|].
  split; [rewrite !string_length_app, Hfirst, Hlast; reflexivity|].
  unfold getDisplayConfig, getConfig. cbv beta iota. f_equal. f_equal. f_equal.
  f_equal.
  - rewrite Hkey, <- Hfirst. apply substring_prefix.
  - f_equal. unfold substring_from.
    replace (Z.to_nat (Z.of_nat (String.length (apiKey config)) - 4))
      with (String.length first + String.length hidden)%nat
      by (rewrite Hkey, !string_length_app; lia).
    replace (String.length (apiKey config)
             - (String.length first + String.length hidden))%nat
      with 4%nat by (rewrite Hkey, !string_length_app; lia).
    rewrite Hkey.
    replace (first ++ hidden ++ last)%string
      with ((first ++ hidden) ++ last)%string.
    + rewrite <- string_length_app, substring_skip.
      apply substring_all. lia.
    + clear. induction first as [|c f IH]; cbn; [reflexivity|now rewrite IH].
Qed.

Lemma getDisplayConfig_masks_witness :
  exists first hidden last,
    "0123456789abcdef" = (first ++ hidden ++ last)%string /\
    String.length first = 4%nat /\ String.length last = 4%nat /\
    (2 <= String.length hidden)%nat /\
    String.length (first ++ "..." ++ last) = 11%nat /\
    getDisplayConfig fixed_runtime sandbox_environment
      (Some {| apiKey := "0123456789abcdef"; baseUrl := SANDBOX;
               useSandbox := true |})
    = (Ok {| display_baseUrl := SANDBOX; display_useSandbox := true;
             apiKeyMasked := first ++ "..." ++ last |},
       Some {| apiKey := "0123456789abcdef"; baseUrl := SANDBOX;
               useSandbox := true |}).
Proof.
  apply (getDisplayConfig_masks fixed_runtime fixed_runtime
           sandbox_environment sandbox_environment
           {| apiKey := "0123456789abcdef"; baseUrl := SANDBOX;
              useSandbox := true |}).
  reflexivity.
Defined.

End Configuration.

Section FieldListConverter.

(* ===================================================================== *)
(** * Further properties of the unit converter *)
(* ===================================================================== *)

(** One round of the loop of [convertMonetaryFields], on an object with
    distinct keys. *)
Lemma convert_one_field obj field :
  NoDup (keys obj) ->
  match get (VObj obj) field with
  | VNum x => obj_set obj field (VNum (groszeToPLN (ANum x)))
  | VStr s => obj_set obj field (VNum (groszeToPLN (AStr s)))
  | _ => obj
  end
  = map (fun kv : string * value =>
           (fst kv, if String.eqb field (fst kv)
                    then Currency.convert_monetary (snd kv) else snd kv)) obj.
Proof.
  induction obj as [|[k v] rest IH]; intros Hnd; [reflexivity|].
  cbn [keys map fst] in Hnd. inversion Hnd as [|? ? Hnotin Hnd']; subst.
  cbn [get lookup map fst snd] in *.
  destruct (String.eqb_spec field k) as [->|Hne].
  - assert (Hrest : map (fun kv : string * value =>
                           (fst kv, if String.eqb k (fst kv)
                                    then Currency.convert_monetary (snd kv)
                                    else snd kv)) rest = rest).
    { clear IH Hnd Hnd'. induction rest as [|[k' v'] rest IH]; [reflexivity|].
      cbn [map fst snd keys] in *.
      destruct (String.eqb_spec k k') as [->|_].
      - exfalso. apply Hnotin. now left.
      - rewrite IH; [reflexivity|]. intros Hin. apply Hnotin. now right. }
    rewrite Hrest.
    destruct v; cbn [obj_set Currency.convert_monetary];
      rewrite ?String.eqb_refl; reflexivity.
  - specialize (IH Hnd').
    destruct (lookup field rest) as [w|] eqn:Hw.
    + destruct w; cbn [obj_set];
        try (apply String.eqb_neq in Hne; rewrite ?Hne; rewrite <- IH;
             reflexivity).
    + rewrite <- IH. reflexivity.
Qed.

Lemma keys_map_value (f : string -> value -> value) obj :
  keys (map (fun kv : string * value => (fst kv, f (fst kv) (snd kv))) obj)
  = keys obj.
Proof.
  unfold keys. rewrite map_map. apply map_ext. reflexivity.
Qed.

Lemma convertMonetaryFields_map obj fields :
  NoDup (keys obj) -> NoDup fields ->
  convertMonetaryFields obj fields
  = map (fun kv : string * value =>
           (fst kv, if includes fields (fst kv)
                    then Currency.convert_monetary (snd kv) else snd kv)) obj.
Proof.
  unfold convertMonetaryFields. revert obj.
  induction fields as [|f fields IH]; intros obj Hobj Hnd.
  - cbn [fold_left includes existsb]. induction obj as [|[k v] rest IHo];
      [reflexivity|].
    cbn [map fst snd]. rewrite <- IHo; [reflexivity|].
    cbn [keys map fst] in Hobj. now inversion Hobj.
  - inversion Hnd as [|? ? Hnotin Hnd']; subst.
    cbn [fold_left]. rewrite convert_one_field by exact Hobj.
    rewrite IH;
      [|rewrite (keys_map_value
                   (fun k v => if String.eqb f k
                               then Currency.convert_monetary v else v));
        exact Hobj|exact Hnd'].
    rewrite map_map. apply map_ext. intros [k v]. cbn [fst snd].
    unfold includes. cbn [existsb]. rewrite (String.eqb_sym k f).
    destruct (String.eqb_spec f k) as [->|Hne]; cbn [orb]; [|reflexivity].
    replace (existsb (String.eqb k) fields) with false; [reflexivity|].
    symmetry. apply not_true_is_false. intros Hex.
    apply existsb_exists in Hex. destruct Hex as (x & Hin & Heq).
    apply String.eqb_eq in Heq. subst x. contradiction.
Qed.

(** X9. [convertMonetaryFields] with a list of distinct field names
    returns the entries of the object in their order, with every listed
    field that holds a number or a string replaced by its [groszeToPLN]
    and every other entry as it was: fields that are not listed, listed
    fields that hold something else, and listed fields that the object
    does not have, which are not added. A field listed twice is converted
    twice. *)
Theorem convertMonetaryFields_entries (obj : list (string * value))
        (fields : list string) :
  NoDup (keys obj) -> NoDup fields ->
  convertMonetaryFields obj fields
  = map (fun kv : string * value =>
           (fst kv, if includes fields (fst kv)
                    then Currency.convert_monetary (snd kv) else snd kv)) obj /\
  keys (convertMonetaryFields obj fields) = keys obj /\
  (forall k, get (VObj (convertMonetaryFields obj fields)) k
             = if includes fields k
               then Currency.convert_monetary (get (VObj obj) k)
               else get (VObj obj) k) /\
  convertMonetaryFields [("price", VNum 10000)] ["price"; "price"]
  = [("price", VNum 1)].
Proof.
  intros Hobj Hnd. rewrite convertMonetaryFields_map by assumption.
  split; [reflexivity|]. split; [|split; [|vm_compute; reflexivity]].
  - apply (keys_map_value
             (fun k v => if includes fields k
                         then Currency.convert_monetary v else v)).
  - intros k. cbn [get]. clear Hobj.
    induction obj as [|[k' v] rest IH]; cbn [map lookup fst snd].
    + destruct (includes fields k); reflexivity.
    + destruct (String.eqb_spec k k') as [->|Hne]; [reflexivity|exact IH].
Qed.

Lemma convertMonetaryFields_entries_witness :
  convertMonetaryFields
    [("name", VStr "Dev"); ("net_price", VNum 12345); ("tax_price", VNull)]
    ["net_price"; "tax_price"; "gross_price"]
  = map (fun kv : string * value =>
           (fst kv, if includes ["net_price"; "tax_price"; "gross_price"] (fst kv)
                    then Currency.convert_monetary (snd kv) else snd kv))
      [("name", VStr "Dev"); ("net_price", VNum 12345); ("tax_price", VNull)] /\
  keys (convertMonetaryFields
          [("name", VStr "Dev"); ("net_price", VNum 12345); ("tax_price", VNull)]
          ["net_price"; "tax_price"; "gross_price"])
  = keys [("name", VStr "Dev"); ("net_price", VNum 12345); ("tax_price", VNull)] /\
  (forall k,
      get (VObj (convertMonetaryFields
                   [("name", VStr "Dev"); ("net_price", VNum 12345);
                    ("tax_price", VNull)]
                   ["net_price"; "tax_price"; "gross_price"])) k
      = if includes ["net_price"; "tax_price"; "gross_price"] k
        then Currency.convert_monetary
               (get (VObj [("name", VStr "Dev"); ("net_price", VNum 12345);
                           ("tax_price", VNull)]) k)
        else get (VObj [("name", VStr "Dev"); ("net_price", VNum 12345);
                        ("tax_price", VNull)]) k) /\
  convertMonetaryFields [("price", VNum 10000)] ["price"; "price"]
  = [("price", VNum 1)].
Proof.
  apply (convertMonetaryFields_entries
           [("name", VStr "Dev"); ("net_price", VNum 12345); ("tax_price", VNull)]
           ["net_price"; "tax_price"; "gross_price"]);
    repeat constructor; simpl; intuition congruence.
Defined.

(** X10. On an object with distinct keys, none of them ["__proto__"],
    whose values are all scalars, [convertMonetaryFields] with the list
    [MONETARY_FIELDS] and [convertAllMonetaryFields] return the same
    entries. *)
Theorem converters_agree_on_flat_objects (obj : list (string * value)) :
  NoDup (keys obj) -> plain_keys (VObj obj) ->
  Forall (fun kv => scalar (snd kv) = true) obj ->
  VObj (convertMonetaryFields obj MONETARY_FIELDS)
  = Currency.convertAllMonetaryFields (VObj obj).
Proof.
  intros Hobj _ Hflat.
  rewrite convertMonetaryFields_map;
    [|exact Hobj|repeat constructor; simpl; intuition congruence].
  rewrite convert_object by exact Hobj. f_equal.
  apply map_ext_Forall. eapply Forall_impl; [|exact Hflat].
  intros [k v] Hs. unfold convert_field. cbn [fst snd] in *.
  destruct (includes MONETARY_FIELDS k); [reflexivity|].
  destruct v; try reflexivity; discriminate Hs.
Qed.

Lemma converters_agree_on_flat_objects_witness :
  VObj (convertMonetaryFields
          [("name", VStr "Dev"); ("net_price", VNum 12345); ("tax_price", VStr "2839")]
          MONETARY_FIELDS)
  = Currency.convertAllMonetaryFields
      (VObj [("name", VStr "Dev"); ("net_price", VNum 12345);
             ("tax_price", VStr "2839")]).
Proof.
  apply (converters_agree_on_flat_objects
           [("name", VStr "Dev"); ("net_price", VNum 12345);
            ("tax_price", VStr "2839")]).
  - repeat constructor; simpl; intuition congruence.
  - cbn. repeat split; discriminate.
  - repeat constructor.
Defined.

(** X11. For a decoded body that has no recognised monetary key at any
    depth (and no key ["__proto__"]), the response of the handlers that
    convert is the response of the handlers that do not: the converter
    returns an equal document, so the serialised text is the same. *)
Theorem responses_agree_without_monetary_keys (rt : runtime) (body : value) :
  well_formed body -> plain_keys body -> no_monetary_key body ->
  Currency.convertAllMonetaryFields body = body /\
  Handlers.Invoice.createJsonResponse rt body
  = Handlers.Product.createJsonResponse rt body /\
  Handlers.Client.createJsonResponse rt body
  = Handlers.Cost.createJsonResponse rt body /\
  Handlers.Reference.createJsonResponse rt body
  = Handlers.Cost.createJsonResponse rt body.
Proof.
  intros Hwf _ Hno.
  pose proof (convert_no_monetary_key body Hwf Hno) as Hid.
  unfold Handlers.Invoice.createJsonResponse, Handlers.Client.createJsonResponse,
    Handlers.Reference.createJsonResponse, Handlers.Product.createJsonResponse,
    Handlers.Cost.createJsonResponse.
  cbv zeta. rewrite Hid. auto.
Qed.

Lemma responses_agree_without_monetary_keys_witness :
  Currency.convertAllMonetaryFields
    (VObj [("entities", VArr [VObj [("id", VNum 7); ("name", VStr "Dev")]])])
  = VObj [("entities", VArr [VObj [("id", VNum 7); ("name", VStr "Dev")]])] /\
  Handlers.Invoice.createJsonResponse fixed_runtime
    (VObj [("entities", VArr [VObj [("id", VNum 7); ("name", VStr "Dev")]])])
  = Handlers.Product.createJsonResponse fixed_runtime
      (VObj [("entities", VArr [VObj [("id", VNum 7); ("name", VStr "Dev")]])]) /\
  Handlers.Client.createJsonResponse fixed_runtime
    (VObj [("entities", VArr [VObj [("id", VNum 7); ("name", VStr "Dev")]])])
  = Handlers.Cost.createJsonResponse fixed_runtime
      (VObj [("entities", VArr [VObj [("id", VNum 7); ("name", VStr "Dev")]])]) /\
  Handlers.Reference.createJsonResponse fixed_runtime
    (VObj [("entities", VArr [VObj [("id", VNum 7); ("name", VStr "Dev")]])])
  = Handlers.Cost.createJsonResponse fixed_runtime
      (VObj [("entities", VArr [VObj [("id", VNum 7); ("name", VStr "Dev")]])]).
Proof.
  apply (responses_agree_without_monetary_keys fixed_runtime
           (VObj [("entities", VArr [VObj [("id", VNum 7); ("name", VStr "Dev")]])])).
  - cbn. repeat split; repeat constructor; simpl; intuition congruence.
  - cbn. repeat split; discriminate.
  - cbn. repeat split.
Defined.

End FieldListConverter.

Section ErrorTranslation.

(* ===================================================================== *)
(** * Further properties of the error translation *)
(* ===================================================================== *)

Import ApiClient Handlers Dispatcher.

Lemma handleApiError_coded rt e :
  exists code, exn_code (handleApiError rt e) = Some code.
Proof. destruct e; cbn; eauto. Qed.

Lemma handleApiError_again rt e :
  handleApiError rt (handleApiError rt e) = handleApiError rt e.
Proof. destruct e; reflexivity. Qed.


(** X13. What [handleToolCall] does for a registered tool. When the
    handler rejects its arguments, the same error goes out whatever the
    remote service is: the service is not called. When the one remote call
    fails, the error that goes out is the translation of the client's
    error, made once although the client wrapper and the dispatcher both
    translate. When the call succeeds, the response is the one the handler
    builds from the result. Every error that goes out is an error of the
    protocol. *)
Theorem handleToolCall_outcomes (rt : runtime) (name : string) (t : tool)
        (args : value) :
  find_tool name TOOL_HANDLERS = Some t ->
  (forall e, handler t rt args = Throw e ->
             forall svc, handleToolCall rt svc name args
                         = Throw (handleApiError rt e)) /\
  (forall svc req respond e,
      handler t rt args = Ok (CallJson req respond) ->
      json svc req = Throw e ->
      handleToolCall rt svc name args = Throw (handleApiError rt e)) /\
  (forall svc req respond e,
      handler t rt args = Ok (CallBinary req respond) ->
      binary svc req = Throw e ->
      handleToolCall rt svc name args = Throw (handleApiError rt e)) /\
  (forall svc req respond body,
      handler t rt args = Ok (CallJson req respond) ->
      json svc req = Ok body ->
      handleToolCall rt svc name args = Ok (respond body)) /\
  (forall svc req respond bytes,
      handler t rt args = Ok (CallBinary req respond) ->
      binary svc req = Ok bytes ->
      handleToolCall rt svc name args = Ok (respond bytes)) /\
  (forall svc e,
      handleToolCall rt svc name args = Throw e ->
      exists code, exn_code e = Some code).
Proof.
  intros Hfind. unfold handleToolCall. rewrite Hfind.
  split; [|split; [|split; [|split; [|split]]]].
  - intros e Hthrow svc. rewrite Hthrow. reflexivity.
  - intros svc req respond e Hcall Hfail. rewrite Hcall.
    cbn [run]. unfold request_json. rewrite Hfail.
    now rewrite handleApiError_again.
  - intros svc req respond e Hcall Hfail. rewrite Hcall.
    cbn [run]. unfold request_binary. rewrite Hfail.
    now rewrite handleApiError_again.
  - intros svc req respond body Hcall Hok. rewrite Hcall.
    cbn [run]. unfold request_json. now rewrite Hok.
  - intros svc req respond bytes Hcall Hok. rewrite Hcall.
    cbn [run]. unfold request_binary. now rewrite Hok.
  - intros svc e.
    destruct (run rt svc (handler t rt args)); [discriminate|].
    intros H. inversion H. apply handleApiError_coded.
Qed.

Lemma handleToolCall_outcomes_witness :
  handleToolCall fixed_runtime fixed_service "infakt_get_client"
    (VObj [("client_id", VNum 7)])
  = Ok (Client.createJsonResponse fixed_runtime (VObj [("net_price", VNum 12345)])) /\
  forall svc,
    handleToolCall fixed_runtime svc "infakt_get_client" (VObj [])
    = Throw (ValidationError "client_id" "must be a positive number").
Proof.
  split.
  - destruct (handleToolCall_outcomes fixed_runtime "infakt_get_client" getClient
                (VObj [("client_id", VNum 7)]) eq_refl)
      as (_ & _ & _ & Hok & _).
    exact (Hok fixed_service _ _ _ eq_refl eq_refl).
  - destruct (handleToolCall_outcomes fixed_runtime "infakt_get_client" getClient
                (VObj []) eq_refl)
      as (Hrejected & _).
    exact (Hrejected _ eq_refl).
Defined.

End ErrorTranslation.

Section RequestsOfHandlers.

(* ===================================================================== *)
(** * Further properties of the operation handlers *)
(* ===================================================================== *)

Import Validation ApiClient Handlers Dispatcher Registry.

Ltac unfold_handlers :=
  unfold Invoice.createInvoice, Invoice.checkInvoiceStatus,
    Invoice.listInvoices, Invoice.getInvoice, Invoice.updateInvoice,
    Invoice.deleteInvoice, Invoice.downloadInvoicePdf,
    Invoice.sendInvoiceEmail, Invoice.markInvoicePaid,
    Client.listClients, Client.getClient, Client.createClient,
    Client.updateClient, Client.deleteClient,
    Product.listProducts, Product.getProduct,
    Product.createProduct, Product.updateProduct, Product.deleteProduct,
    Reference.getVatRates, Reference.getBankAccounts,
    Reference.getAccountInfo, Reference.read_only,
    Cost.listCosts, Cost.getCost in *.

(** Peels the checks off a handler that reached its remote call. *)
Ltac passed H :=
  repeat match type of H with
         | bind ?r _ = Ok _ =>
             let a := fresh "a" in
             let E := fresh "Hcheck" in
             destruct r as [a|] eqn:E; cbn [bind] in H; [|discriminate H]
         end.

(** Runs a handler up to the check that an absent argument fails. *)
Ltac rejected :=
  cbn [validateRequiredString validateUUID validatePositiveNumber
       validateDateString validateEnum when negb truthy is_undefined orb
       optional bind];
  repeat match goal with
         | |- exists e, Throw _ = Throw e => eexists; reflexivity
         | |- exists e, bind ?r _ = Throw e =>
             destruct r; cbn [bind]; [|eexists; reflexivity]
         end.

(** X14. The tools that are advertised and the handlers that are
    registered are the same 24 names, so the start-up check neither fails
    nor warns; and every argument that the input schema of a tool lists as
    required is required by its handler: when the argument is absent, the
    handler throws before it calls the remote service. *)
Theorem required_arguments_enforced :
  validateToolHandlers = Ok tt /\
  missingHandlers = [] /\ extraHandlers = [] /\
  List.length TOOLS = 24%nat /\
  Forall (fun entry : string * list string =>
            exists t,
              find_tool (fst entry) TOOL_HANDLERS = Some t /\
              forall rt args field,
                In field (snd entry) -> get args field = VUndefined ->
                exists e, handler t rt args = Throw e)
         TOOLS.
Proof.
  split; [reflexivity|]. split; [reflexivity|]. split; [reflexivity|].
  split; [reflexivity|].
  unfold TOOLS.
  repeat (apply Forall_cons; [eexists; split; [reflexivity|]|]);
    [..|apply Forall_nil];
    intros rt args field Hin Hget; cbn [snd In] in Hin;
    repeat (destruct Hin as [<-|Hin]); try contradiction;
    cbn [handler]; unfold_handlers; rewrite ?Hget; rejected.
Qed.

(** X15. A handler that addresses a document by its identifier calls the
    remote service only with a path made of the two fixed parts and, in
    between, the identifier as the caller gave it, which is a string of
    the canonical 36-character form: hexadecimal digits and dashes, and
    nothing that could change the path. *)
Theorem identifier_in_path (rt : runtime) (t : tool) (args : value) (c : call)
        (key before behind : string) :
  uuid_route t = Some (key, before, behind) ->
  handler t rt args = Ok c ->
  exists s,
    get args key = VStr s /\ is_uuid s /\
    url (request_of c) = (before ++ s ++ behind)%string.
Proof.
  intros Hroute Hcall.
  destruct t; try discriminate Hroute; inversion Hroute; subst; clear Hroute;
    cbn [handler] in Hcall; unfold_handlers;
    unfold validateUUID in Hcall at 1;
    (destruct (get args _) as [| | | |s| |] eqn:Hget;
     try discriminate Hcall);
    (destruct (uuidRegex_test s) eqn:Hre; [|discriminate Hcall]);
    cbn [bind] in Hcall; passed Hcall; inversion Hcall; subst;
    exists s; (split; [reflexivity|]);
    (split; [now apply uuidRegex_test_spec|reflexivity]).
Qed.

Lemma identifier_in_path_witness :
  exists c s,
    handler downloadInvoicePdf fixed_runtime pdf_arguments = Ok c /\
    get pdf_arguments "invoice_uuid" = VStr s /\ is_uuid s /\
    url (request_of c) = ("/invoices/" ++ s ++ "/pdf.json")%string.
Proof.
  assert (Hcall : exists c,
             handler downloadInvoicePdf fixed_runtime pdf_arguments = Ok c)
    by (eexists; reflexivity).
  destruct Hcall as [c Hcall].
  destruct (identifier_in_path fixed_runtime downloadInvoicePdf pdf_arguments c
              "invoice_uuid" "/invoices/" "/pdf.json" eq_refl Hcall)
    as (s & Hs & Hu & Hurl).
  exists c, s. auto.
Defined.

(** ** Query parameters *)

Lemma sanitize_loop params acc :
  NoDup (keys acc ++ keys params) ->
  fold_left
    (fun sanitized (entry : string * value) =>
       let (key, value) := entry in
       match value with
       | VUndefined | VNull => sanitized
       | _ => obj_set sanitized key value
       end)
    params acc
  = acc ++ filter (fun kv => defined (snd kv)) params.
Proof.
  revert acc. induction params as [|[k v] rest IH]; intros acc Hnd.
  - cbn [fold_left filter]. now rewrite app_nil_r.
  - cbn [keys map fst] in Hnd.
    assert (Hfresh : ~ In k (keys acc)).
    { intros Hin. apply NoDup_remove_2 in Hnd. apply Hnd.
      apply in_or_app. now left. }
    assert (Hskip : NoDup (keys acc ++ keys rest))
      by (now apply NoDup_remove_1 in Hnd).
    assert (Hstep : forall w, NoDup (keys (acc ++ [(k, w)]) ++ keys rest)).
    { intros w. rewrite keys_app. cbn [keys map fst]. rewrite <- app_assoc.
      exact Hnd. }
    cbn [fold_left filter snd].
    destruct v; cbn [defined];
      try (rewrite IH by exact Hskip; reflexivity);
      rewrite obj_set_fresh by assumption; rewrite IH by apply Hstep;
      rewrite <- app_assoc; reflexivity.
Qed.

Lemma sanitizeParams_filter params :
  NoDup (keys params) ->
  sanitizeParams params = filter (fun kv => defined (snd kv)) params.
Proof.
  intros Hnd. unfold sanitizeParams. now rewrite sanitize_loop.
Qed.

Lemma lookup_filter_defined params k :
  NoDup (keys params) ->
  lookup k (filter (fun kv => defined (snd kv)) params)
  = match lookup k params with
    | Some v => if defined v then Some v else None
    | None => None
    end.
Proof.
  induction params as [|[k' v] rest IH]; intros Hnd; [reflexivity|].
  cbn [keys map fst] in Hnd. inversion Hnd as [|? ? Hnotin Hnd']; subst.
  cbn [filter snd lookup].
  destruct (String.eqb_spec k k') as [->|Hne].
  - destruct (defined v) eqn:Hv; cbn [lookup].
    + now rewrite String.eqb_refl.
    + rewrite (IH Hnd').
      destruct (lookup k' rest) as [w|] eqn:Hw; [|reflexivity].
      exfalso. apply Hnotin. clear -Hw.
      induction rest as [|[k v] rest IH]; [discriminate Hw|].
      cbn [lookup] in Hw. cbn [keys map fst].
      destruct (String.eqb_spec k' k) as [->|_]; [now left|right; auto].
  - destruct (defined v); cbn [lookup].
    + apply String.eqb_neq in Hne. rewrite Hne. exact (IH Hnd').
    + exact (IH Hnd').
Qed.

Lemma get_sanitizeParams params k :
  NoDup (keys params) ->
  get (VObj (sanitizeParams params)) k
  = if defined (get (VObj params) k) then get (VObj params) k else VUndefined.
Proof.
  intros Hnd. rewrite sanitizeParams_filter by exact Hnd. cbn [get].
  rewrite lookup_filter_defined by exact Hnd.
  destruct (lookup k params) as [v|]; [|reflexivity].
  destruct (defined v); reflexivity.
Qed.

(** X16. [sanitizeParams], on entries with distinct keys other than
    ["__proto__"], keeps the entries whose value is neither [undefined]
    nor [null], in their order, and nothing else: the result holds no
    [undefined] and no [null], reading a key from it gives the value the
    key had if that was defined and [undefined] otherwise, and sanitizing
    again changes nothing. *)
Theorem sanitizeParams_entries (params : list (string * value)) :
  NoDup (keys params) -> plain_keys (VObj params) ->
  sanitizeParams params = filter (fun kv => defined (snd kv)) params /\
  Forall (fun kv => defined (snd kv) = true) (sanitizeParams params) /\
  (forall k,
      get (VObj (sanitizeParams params)) k
      = if defined (get (VObj params) k) then get (VObj params) k
        else VUndefined) /\
  sanitizeParams (sanitizeParams params) = sanitizeParams params.
Proof.
  intros Hnd _.
  assert (Hkeep : NoDup (keys (filter (fun kv : string * value =>
                                         defined (snd kv)) params))).
  { clear -Hnd. induction params as [|[k v] rest IH]; [constructor|].
    cbn [keys map fst] in Hnd. inversion Hnd as [|? ? Hnotin Hnd']; subst.
    cbn [filter snd]. destruct (defined v); [|now apply IH].
    cbn [keys map fst]. constructor; [|now apply IH].
    intros Hin. apply Hnotin. unfold keys in *.
    apply in_map_iff in Hin. destruct Hin as (kv & Hk & Hin).
    apply filter_In in Hin. apply in_map_iff. exists kv. tauto. }
  split; [now apply sanitizeParams_filter|]. split; [|split].
  - rewrite sanitizeParams_filter by exact Hnd. apply Forall_forall.
    intros kv Hin. apply filter_In in Hin. tauto.
  - intros k. now apply get_sanitizeParams.
  - rewrite (sanitizeParams_filter params Hnd).
    rewrite sanitizeParams_filter by exact Hkeep.
    clear. induction params as [|[k v] rest IH]; [reflexivity|].
    cbn [filter snd]. destruct (defined v) eqn:Hv; [|exact IH].
    cbn [filter snd]. rewrite Hv, IH. reflexivity.
Qed.

Lemma sanitizeParams_entries_witness :
  sanitizeParams [("offset", VUndefined); ("limit", VNum 10); ("fields", VNull)]
  = filter (fun kv => defined (snd kv))
      [("offset", VUndefined); ("limit", VNum 10); ("fields", VNull)] /\
  Forall (fun kv => defined (snd kv) = true)
    (sanitizeParams [("offset", VUndefined); ("limit", VNum 10); ("fields", VNull)]) /\
  (forall k,
      get (VObj (sanitizeParams
                   [("offset", VUndefined); ("limit", VNum 10); ("fields", VNull)])) k
      = if defined (get (VObj [("offset", VUndefined); ("limit", VNum 10);
                               ("fields", VNull)]) k)
        then get (VObj [("offset", VUndefined); ("limit", VNum 10);
                        ("fields", VNull)]) k
        else VUndefined) /\
  sanitizeParams
    (sanitizeParams [("offset", VUndefined); ("limit", VNum 10); ("fields", VNull)])
  = sanitizeParams [("offset", VUndefined); ("limit", VNum 10); ("fields", VNull)].
Proof.
  apply (sanitizeParams_entries
           [("offset", VUndefined); ("limit", VNum 10); ("fields", VNull)]).
  - repeat constructor; simpl; intuition congruence.
  - cbn. repeat split; discriminate.
Defined.

(** ** What the list, update and read handlers send *)

Lemma pagination_checked params :
  validatePaginationParams params = Ok tt ->
  offset_ok (get params "offset") = true /\
  limit_ok (get params "limit") = true.
Proof.
  unfold validatePaginationParams, offset_ok, limit_ok.
  destruct (get params "offset") as [| | |x| | |];
    cbn [is_undefined negb when validateNonNegativeNumber bind];
    try discriminate.
  - destruct (get params "limit") as [| | |y| | |];
      cbn [is_undefined negb when validatePositiveNumber bind];
      try discriminate; [auto|].
    destruct (y <=? 0)%float, (isFinite y), (100 <? y)%float; cbn;
      try discriminate; auto.
  - destruct (x <? 0)%float, (isFinite x); cbn; try discriminate.
    destruct (get params "limit") as [| | |y| | |];
      cbn [is_undefined negb when validatePositiveNumber bind];
      try discriminate; [auto|].
    destruct (y <=? 0)%float, (isFinite y), (100 <? y)%float; cbn;
      try discriminate; auto.
Qed.

Lemma lookup_obj_set_other (fields : list (string * value)) k k' v :
  k <> k' -> lookup k (obj_set fields k' v) = lookup k fields.
Proof.
  intros Hne. induction fields as [|[k0 v0] rest IH]; cbn [obj_set lookup].
  - apply String.eqb_neq in Hne. now rewrite Hne.
  - destruct (String.eqb_spec k' k0) as [->|Hk0]; cbn [lookup].
    + apply String.eqb_neq in Hne. now rewrite Hne.
    + now rewrite IH.
Qed.

Lemma get_with_filters queryParams filters k :
  k <> "q" -> get (with_filters queryParams filters) k = get (VObj queryParams) k.
Proof.
  intros Hne. unfold with_filters. destruct filters; [reflexivity|].
  cbn [get]. now rewrite lookup_obj_set_other.
Qed.

Lemma offset_ok_defined v :
  offset_ok v = true -> (if defined v then v else VUndefined) = v.
Proof. destruct v; cbn; congruence. Qed.

Lemma limit_ok_defined v :
  limit_ok v = true -> (if defined v then v else VUndefined) = v.
Proof. destruct v; cbn; congruence. Qed.

(** X17. A list handler that reaches its remote call reads with GET and
    passes the offset and the limit of the caller on as they are; they
    have passed the pagination check, so no query leaves with a limit
    above 100, a limit that is not positive, or a negative offset. *)
Theorem list_handlers_pagination (rt : runtime) (t : tool) (args : value)
        (c : call) :
  list_tool t = true ->
  handler t rt args = Ok c ->
  verb (request_of c) = GET /\
  data (request_of c) = VUndefined /\
  get (params (request_of c)) "offset" = get args "offset" /\
  get (params (request_of c)) "limit" = get args "limit" /\
  offset_ok (get (params (request_of c)) "offset") = true /\
  limit_ok (get (params (request_of c)) "limit") = true.
Proof.
  intros Hlist Hcall.
  assert (Hpage : validatePaginationParams args = Ok tt).
  { destruct t; try discriminate Hlist; cbn [handler] in Hcall;
      unfold_handlers;
      (destruct (validatePaginationParams args) as [[]|];
       [reflexivity|discriminate Hcall]). }
  destruct (pagination_checked args Hpage) as [Hoff Hlim].
  assert (Hquery :
            verb (request_of c) = GET /\ data (request_of c) = VUndefined /\
            get (params (request_of c)) "offset" = get args "offset" /\
            get (params (request_of c)) "limit" = get args "limit").
  { destruct t; try discriminate Hlist; cbn [handler] in Hcall;
      unfold_handlers; rewrite Hpage in Hcall; cbn [bind] in Hcall;
      passed Hcall; inversion Hcall; subst; cbn [request_of verb data params];
      (split; [reflexivity|]); (split; [reflexivity|]);
      rewrite ?get_with_filters by discriminate;
      rewrite !get_sanitizeParams
        by (repeat constructor; simpl; intuition congruence);
      cbn [get lookup String.eqb Ascii.eqb Bool.eqb];
      rewrite (offset_ok_defined _ Hoff), (limit_ok_defined _ Hlim);
      split; reflexivity. }
  destruct Hquery as (Hv & Hd & Ho & Hl). rewrite Ho, Hl.
  repeat split; assumption.
Qed.

Lemma list_handlers_pagination_witness :
  exists c,
    handler listClients fixed_runtime (VObj [("limit", VNum 100)]) = Ok c /\
    verb (request_of c) = GET /\
    data (request_of c) = VUndefined /\
    get (params (request_of c)) "offset" = get (VObj [("limit", VNum 100)]) "offset" /\
    get (params (request_of c)) "limit" = get (VObj [("limit", VNum 100)]) "limit" /\
    offset_ok (get (params (request_of c)) "offset") = true /\
    limit_ok (get (params (request_of c)) "limit") = true.
Proof.
  eexists. split; [reflexivity|].
  apply (list_handlers_pagination fixed_runtime listClients
           (VObj [("limit", VNum 100)])); reflexivity.
Defined.

Lemma lookup_rest_without key fields k :
  lookup k (filter (fun f : string * value => negb (String.eqb (fst f) key)) fields)
  = if String.eqb k key then None else lookup k fields.
Proof.
  induction fields as [|[k0 v0] rest IH]; cbn [filter lookup fst].
  - destruct (String.eqb k key); reflexivity.
  - destruct (String.eqb_spec k0 key) as [Heq|Hne]; cbn [negb lookup];
      rewrite IH.
    + subst k0. destruct (String.eqb k key); reflexivity.
    + destruct (String.eqb_spec k k0) as [Hk|Hk]; [|reflexivity].
      subst k0. apply String.eqb_neq in Hne. now rewrite Hne.
Qed.

(** X18. An update handler that reaches its remote call sends, with PUT,
    one object under the name of the resource: the arguments of the caller
    without the identifier, which travels in the path only. Every other
    argument is sent as the caller gave it. *)
Theorem update_handlers_body (rt : runtime) (t : tool) (args : value) (c : call)
        (key resource : string) :
  update_route t = Some (key, resource) ->
  handler t rt args = Ok c ->
  verb (request_of c) = PUT /\
  exists rest,
    data (request_of c) = VObj [(resource, VObj rest)] /\
    get (VObj rest) key = VUndefined /\
    forall k, k <> key -> get (VObj rest) k = get args k.
Proof.
  intros Hroute Hcall.
  assert (Hobj : exists fields, args = VObj fields).
  { destruct t; try discriminate Hroute; cbn [handler] in Hcall;
      unfold_handlers;
      (destruct args as [| | | | | |fields]; [..|eauto]);
      discriminate Hcall. }
  destruct Hobj as [fields ->].
  destruct t; try discriminate Hroute; inversion Hroute; subst; clear Hroute;
    cbn [handler] in Hcall; unfold_handlers; passed Hcall; inversion Hcall;
    subst; cbn [request_of verb data]; (split; [reflexivity|]);
    eexists; (split; [reflexivity|]); unfold rest_without; cbn [get];
    (split; [now rewrite lookup_rest_without, String.eqb_refl|]);
    intros k Hk; rewrite lookup_rest_without;
    apply String.eqb_neq in Hk; now rewrite Hk.
Qed.

Lemma update_handlers_body_witness :
  exists c,
    handler updateClient fixed_runtime
      (VObj [("client_id", VNum 7); ("email", VStr "a@b.pl")]) = Ok c /\
    verb (request_of c) = PUT /\
    exists rest,
      data (request_of c) = VObj [("client", VObj rest)] /\
      get (VObj rest) "client_id" = VUndefined /\
      forall k, k <> "client_id" ->
                get (VObj rest) k
                = get (VObj [("client_id", VNum 7); ("email", VStr "a@b.pl")]) k.
Proof.
  eexists. split; [reflexivity|].
  apply (update_handlers_body fixed_runtime updateClient
           (VObj [("client_id", VNum 7); ("email", VStr "a@b.pl")]));
    reflexivity.
Defined.

(** X19. A handler that lists, gets, checks or downloads never sends
    anything but a GET without a body, whatever its arguments are; and the
    three reference-data handlers do not look at their arguments at
    all. *)
Theorem read_handlers_only_get (rt : runtime) (t : tool) (args : value)
        (c : call) :
  reads_only t = true ->
  handler t rt args = Ok c ->
  verb (request_of c) = GET /\
  data (request_of c) = VUndefined /\
  (group_of t = ReferenceData ->
   forall args', handler t rt args' = handler t rt args).
Proof.
  intros Hread Hcall.
  destruct t; try discriminate Hread; cbn [handler] in *; unfold_handlers;
    passed Hcall; inversion Hcall; subst; cbn [request_of verb data];
    (split; [reflexivity|]); (split; [reflexivity|]);
    cbn [group_of]; intros Hgroup; try discriminate Hgroup; reflexivity.
Qed.

Lemma read_handlers_only_get_witness :
  exists c,
    handler getVatRates fixed_runtime (VObj []) = Ok c /\
    verb (request_of c) = GET /\
    data (request_of c) = VUndefined /\
    (group_of getVatRates = ReferenceData ->
     forall args',
       handler getVatRates fixed_runtime args'
       = handler getVatRates fixed_runtime (VObj [])).
Proof.
  eexists. split; [reflexivity|].
  apply (read_handlers_only_get fixed_runtime getVatRates (VObj []));
    reflexivity.
Defined.



(** ** Dates and line items that reach the remote service *)






(** X22. An invoice that "create invoice" sends to the remote service has
    a client name that is not blank, one of the payment methods, and a
    list of line items that is not empty and whose every item satisfies
    what [validateInvoiceService] asks; it is posted as it was given,
    under the key "invoice". *)
Theorem createInvoice_sends_valid_invoice (rt : runtime) (args : value)
        (c : call) :
  Invoice.createInvoice rt args = Ok c ->
  (exists name, get args "client_company_name" = VStr name /\
                String.length (trim name) <> 0%nat) /\
  (exists chosen, get args "payment_method" = VStr chosen /\
                  In chosen Invoice.PAYMENT_METHODS) /\
  (exists items, get args "services" = VArr items /\ items <> [] /\
                 Forall service_ok items) /\
  request_of c = {| verb := POST; url := "/async/invoices.json";
                    data := VObj [("invoice", args)]; params := VUndefined |}.
Proof.
  intros Hcall. unfold Invoice.createInvoice in Hcall. passed Hcall.
  inversion Hcall; subst c. clear Hcall.
  repeat match goal with u : unit |- _ => destruct u end.
  split; [|split; [|split; [|reflexivity]]].
  - now apply validateRequiredString_ok with (field := "client_company_name").
  - match goal with
    | H : validateEnum _ _ _ = Ok tt |- _ =>
        unfold validateEnum in H;
        destruct (get args "payment_method") as [| | | |chosen| |];
        try discriminate H;
        destruct (includes Invoice.PAYMENT_METHODS chosen) eqn:Hin;
        [|discriminate H]
    end.
    exists chosen. split; [reflexivity|].
    unfold includes in Hin. apply existsb_exists in Hin.
    destruct Hin as (x & Hx & Heq). apply String.eqb_eq in Heq. now subst x.
  - match goal with
    | H : validateArray _ _ _ _ = Ok tt |- _ =>
        unfold validateArray in H;
        destruct (get args "services") as [| | | | |items|];
        try discriminate H;
        destruct items as [|item items]; [discriminate H|];
        cbv beta iota in H;
        pose proof (proj1 (validate_items_ok _ _ _ _ _) H) as Hall
    end.
    exists (item :: items). split; [reflexivity|]. split; [discriminate|].
    apply Forall_forall. intros x Hx.
    apply In_nth_error in Hx. destruct Hx as [i Hi].
    apply (validateInvoiceService_ok x (0 + N.of_nat i)%N).
    now apply Hall.
Qed.

Lemma createInvoice_sends_valid_invoice_witness :
  exists c,
    Invoice.createInvoice fixed_runtime acme_invoice = Ok c /\
    (exists name, get acme_invoice "client_company_name" = VStr name /\
                  String.length (trim name) <> 0%nat) /\
    (exists chosen, get acme_invoice "payment_method" = VStr chosen /\
                    In chosen Invoice.PAYMENT_METHODS) /\
    (exists items, get acme_invoice "services" = VArr items /\ items <> [] /\
                   Forall service_ok items) /\
    request_of c = {| verb := POST; url := "/async/invoices.json";
                      data := VObj [("invoice", acme_invoice)];
                      params := VUndefined |}.
Proof.
  assert (Hcall : exists c, Invoice.createInvoice fixed_runtime acme_invoice = Ok c)
    by (eexists; vm_compute; reflexivity).
  destruct Hcall as [c Hcall]. exists c. split; [exact Hcall|].
  exact (createInvoice_sends_valid_invoice fixed_runtime acme_invoice c Hcall).
Defined.

End RequestsOfHandlers.

Section StringAmounts.

(* ===================================================================== *)
(** * Amounts written as decimal strings *)
(* ===================================================================== *)

Lemma digits_of_uint d acc :
  fold_left (fun a c => 10 * a + digit_val c)
    (chars (NilEmpty.string_of_uint d)) acc
  = uint_value d acc.
Proof.
  revert acc. induction d; intros acc; cbn [NilEmpty.string_of_uint chars
    list_ascii_of_string fold_left uint_value]; rewrite ?IHd;
    try reflexivity; f_equal; unfold digit_val, code; cbn; lia.
Qed.

Lemma uint_value_acc d p :
  uint_value d (Z.pos p) = Z.pos (Pos.of_uint_acc d p).
Proof.
  revert p. induction d; intros p; cbn [uint_value Pos.of_uint_acc];
    try reflexivity;
    match goal with
    | |- uint_value _ ?a = Z.pos (Pos.of_uint_acc _ ?q) =>
        replace a with (Z.pos q) by lia; apply IHd
    end.
Qed.

Lemma uint_value_of_uint d : uint_value d 0 = Z.of_N (Pos.of_uint d).
Proof.
  induction d; cbn [uint_value Pos.of_uint]; try reflexivity;
    try exact IHd;
    match goal with
    | |- uint_value _ ?a = Z.of_N (N.pos (Pos.of_uint_acc _ ?q)) =>
        change a with (Z.pos q); apply uint_value_acc
    end.
Qed.

Lemma digits_are_digits d :
  forallb is_digit (chars (NilEmpty.string_of_uint d)) = true.
Proof.
  unfold chars.
  induction d; cbn [NilEmpty.string_of_uint list_ascii_of_string forallb];
    rewrite ?IHd; reflexivity.
Qed.

Lemma decimal_digits n :
  exists c rest,
    chars (decimal n) = c :: rest /\
    forallb is_digit (c :: rest) = true /\
    digits_val (c :: rest) = Z.of_N n.
Proof.
  assert (Hgen : forall d, d <> Decimal.Nil ->
                   NilZero.string_of_uint d = NilEmpty.string_of_uint d /\
                   exists c rest,
                     chars (NilEmpty.string_of_uint d) = c :: rest).
  { intros d Hd. destruct d; try congruence;
      (split; [reflexivity|eexists _, _; reflexivity]). }
  unfold decimal.
  pose proof (DecimalN.Unsigned.of_to n) as Hn. unfold N.of_uint in Hn.
  destruct (Decimal.uint_eq_dec (N.to_uint n) Decimal.Nil) as [Hnil|Hnn].
  - rewrite Hnil in *. cbn in Hn. subst n. exists "0"%char, [].
    repeat split.
  - destruct (Hgen _ Hnn) as (Hsame & c & rest & Hc). rewrite Hsame.
    exists c, rest. split; [exact Hc|]. rewrite <- Hc.
    split; [apply digits_are_digits|].
    unfold digits_val. rewrite digits_of_uint, uint_value_of_uint.
    now rewrite Hn.
Qed.

Lemma digit_is_plain c :
  is_digit c = true ->
  is_space c = false /\ Ascii.eqb c "-" = false /\ Ascii.eqb c "+" = false /\
  Ascii.eqb c "I" = false.
Proof.
  destruct c as [[] [] [] [] [] [] [] []]; intros H; try discriminate H;
    repeat split.
Qed.

Lemma span_all_digits l :
  forallb is_digit l = true -> span_digits l = (l, []).
Proof.
  induction l as [|c l IH]; intros H; [reflexivity|].
  cbn [forallb] in H. apply andb_true_iff in H. destruct H as [Hc Hl].
  cbn [span_digits]. rewrite Hc, (IH Hl). reflexivity.
Qed.

Lemma parseFloat_decimal n : parseFloat (decimal n) = of_int (Z.of_N n).
Proof.
  destruct (decimal_digits n) as (c & rest & Hchars & Hall & Hval).
  unfold parseFloat. rewrite Hchars.
  pose proof Hall as Hall'. cbn [forallb] in Hall'.
  apply andb_true_iff in Hall'. destruct Hall' as [Hc _].
  destruct (digit_is_plain c Hc) as (Hsp & Hminus & Hplus & HI).
  cbn [drop_spaces]. rewrite Hsp, Hminus, Hplus.
  replace (starts_with (chars "Infinity") (c :: rest)) with false
    by (cbn [chars list_ascii_of_string starts_with];
        rewrite Ascii.eqb_sym, HI; reflexivity).
  rewrite (span_all_digits _ Hall). rewrite app_nil_r.
  rewrite Hval. destruct n as [|m]; [reflexivity|].
  cbn [Z.of_N exponent_part List.length Z.of_nat Z.sub Z.opp Z.add].
  unfold decimal_to_float. cbn [Z.leb Z.compare Z.pow Z.pow_pos Pos.iter].
  unfold of_int. rewrite Z.mul_1_r. reflexivity.
Qed.

(** X23. An integer amount written in decimal digits is converted as the
    Number it denotes: [parseFloat] reads the digits as that integer, so
    [groszeToPLN] gives the same result for the string and for the Number,
    and under a recognised key [convertAllMonetaryFields] stores the same
    Number for both. *)
Theorem string_amount_as_number (n : N) :
  parseFloat (decimal n) = of_int (Z.of_N n) /\
  groszeToPLN (AStr (decimal n)) = groszeToPLN (ANum (of_int (Z.of_N n))) /\
  Currency.convertAllMonetaryFields (VObj [("net_price", VStr (decimal n))])
  = Currency.convertAllMonetaryFields
      (VObj [("net_price", VNum (of_int (Z.of_N n)))]).
Proof.
  pose proof (parseFloat_decimal n) as Hparse.
  split; [exact Hparse|]. split.
  - unfold groszeToPLN. now rewrite Hparse.
  - cbn [Currency.convertAllMonetaryFields fold_left].
    change (includes MONETARY_FIELDS "net_price") with true. cbv iota.
    cbn [obj_set Currency.convert_monetary]. unfold groszeToPLN.
    now rewrite Hparse.
Qed.

End StringAmounts.
